(** * Katunayaka site script: a shallow embedding of [static/js/script.js]

    The script keeps four module-level variables ([currentLanguage],
    [currentPage], [navData], [cache]) and talks to the browser: the DOM,
    [localStorage], [window.history], [fetch], [window.open], the console.
    Here every function of the script is a function on an explicit [State]
    record that holds the script's variables together with the part of the
    browser it reads or writes.  [fetch] and the global [marked] are read from
    an [Env] passed to each call; every call to the browser that leaves no
    value behind is appended to [trace]. *)

From Stdlib Require Import String Ascii List Bool Arith Lia.
From stdpp Require Import gmap strings list fin_maps.
From Equations Require Import Equations.
Import ListNotations.

Set Warnings "-register-all".
Local Open Scope string_scope.

(** ** JavaScript values used by the script *)

Module Js.

(** A variable that holds [null]/[undefined] or a string. *)
Definition value := option string.

(** Truthiness: [null], [undefined] and the empty string are falsy. *)
Definition truthy (v : value) : bool :=
  match v with
  | Some s => negb (String.eqb s "")
  | None => false
  end.

(** [a || b] *)
Definition or (a b : value) : value := if truthy a then a else b.

(** String conversion inside a template literal or [setItem]. *)
Definition to_string (v : value) : string :=
  match v with
  | Some s => s
  | None => "null"
  end.

(** [s.startsWith(p)] *)
Definition startsWith (p s : string) : bool := String.prefix p s.

(** [s.replace(pat, rep)] with a string pattern: the first occurrence. *)
Fixpoint replace (pat rep s : string) : string :=
  if String.prefix pat s
  then rep +:+ String.substring (String.length pat)
                 (String.length s - String.length pat) s
  else match s with
       | EmptyString => EmptyString
       | String c s' => String c (replace pat rep s')
       end.

(** [s.split('.').pop()]: what follows the last dot, or all of [s]. *)
Fixpoint last_segment (cur s : string) : string :=
  match s with
  | EmptyString => cur
  | String c s' =>
      if Ascii.eqb c "."%char then last_segment "" s'
      else last_segment (cur +:+ String c "") s'
  end.

Definition split_dot_pop (s : string) : string := last_segment "" s.

(** [arr.includes(v)] on an array of strings. *)
Definition includes (arr : list string) (v : value) : bool :=
  match v with
  | Some s => existsb (String.eqb s) arr
  | None => false
  end.

End Js.

(** ** CONFIG *)

Module CONFIG.
Definition defaultLanguage : string := "si".
Definition defaultPage : string := "home.html".
Definition supportedLanguages : list string := ["si"; "en"; "ta"].
End CONFIG.

(** ** Data model *)

(** A navigation item of the navigation document
    [{ text, link?, sub_menu?: [...] }].  [sub_menu = Some l] is a field that
    holds an array (of any length), [None] a field that is missing. *)
Inductive NavItem : Type :=
  mkNavItem (text : string) (link : Js.value) (sub_menu : option (list NavItem)).

Definition item_text (i : NavItem) : string :=
  match i with mkNavItem t _ _ => t end.
Definition item_link (i : NavItem) : Js.value :=
  match i with mkNavItem _ l _ => l end.
Definition item_sub_menu (i : NavItem) : option (list NavItem) :=
  match i with mkNavItem _ _ s => s end.

(** The navigation document [{ name, payment, nav }] of one language. *)
Record NavData : Type := mkNavData {
  nd_name : Js.value;
  nd_payment : Js.value;
  nd_nav : option (list NavItem)
}.

(** The object literal [{}] that [navData] starts as. *)
Definition emptyNavData : NavData := mkNavData None None None.

(** The click listener the script attaches to a link it creates. *)
Inductive Listener : Type :=
| CloseMobileNav
    (* addEventListener('click', closeMobileNav) *)
| InterceptAndLoad (link : Js.value).
    (* (e) => { e.preventDefault(); closeMobileNav();
                if (link) loadContent(link, currentLanguage); } *)

(** A DOM element as the script builds it. *)
Inductive Node : Type :=
  Element (tagName : string)
          (classList : list string)
          (attributes : list (string * string))
          (textContent : string)
          (onclick : option Listener)
          (childNodes : list Node).

Definition tagName (n : Node) : string :=
  match n with Element t _ _ _ _ _ => t end.
Definition classList (n : Node) : list string :=
  match n with Element _ c _ _ _ _ => c end.
Definition attributes (n : Node) : list (string * string) :=
  match n with Element _ _ a _ _ _ => a end.
Definition textContent (n : Node) : string :=
  match n with Element _ _ _ t _ _ => t end.
Definition onclick (n : Node) : option Listener :=
  match n with Element _ _ _ _ l _ => l end.
Definition childNodes (n : Node) : list Node :=
  match n with Element _ _ _ _ _ c => c end.

(** The elements with a fixed id that the script looks up; [None] is an
    element that is not in the document. *)
Record Dom : Type := mkDom {
  councilName : option string;        (* textContent *)
  PaymentName : option string;        (* textContent *)
  navItem1 : option (list Node);      (* children *)
  navItem2 : option (list Node);
  footerNav : option (list Node);
  content : option string;            (* innerHTML *)
  menuItems : option bool;            (* has class 'show' *)
  languageUI : Js.value               (* language the selector is decorated for *)
}.

(** A [window.history] entry: the state object [{ page, lang }] and the URL. *)
Record HistoryEntry : Type := mkEntry {
  h_page : Js.value;
  h_lang : Js.value;
  h_url : string
}.

(** Calls into the browser that return nothing the script uses. *)
Inductive Event : Type :=
| Fetch (path : string)
| ConsoleError (msg : string)
| ConsoleWarn (msg : string)
| ConsoleLog (msg : string)
| WindowOpen (url target features : string)
| ScrollToTop.

(** [const cache = { nav: {}, pages: {} }].  The two objects are used as
    maps from strings; properties inherited from [Object.prototype] are not
    modelled. *)
Record Cache : Type := mkCache {
  nav : gmap string NavData;
  pages : gmap string string
}.

Record State : Type := mkState {
  currentLanguage : Js.value;
  currentPage : Js.value;
  navData : NavData;
  cache : Cache;
  storedLanguage : Js.value;          (* localStorage.getItem('language') *)
  dom : Dom;
  history : list HistoryEntry;        (* pushState appends *)
  trace : list Event
}.

(** What [fetch(path)] resolves to: a rejected promise, or a response with
    its [ok] flag and the outcome of [text()] / [json()] ([None]: rejected). *)
Inductive Response : Type :=
| NetworkError
| Http (ok : bool) (text : option string) (json : option NavData).

(** The world outside the script during one call: the network, and the global
    [marked] ([None]: undefined; [parse] returning [None]: it throws). *)
Record Env : Type := mkEnv {
  fetch : string -> Response;
  marked : option (string -> option string)
}.

(** The state when the script has been loaded and no handler has run. *)
Definition initialState (stored : Js.value) (d : Dom) : State :=
  mkState None None emptyNavData (mkCache ∅ ∅) stored d [] [].

(** *** Field updates *)

Definition set_currentLanguage (v : Js.value) (st : State) : State :=
  mkState v (currentPage st) (navData st) (cache st) (storedLanguage st)
          (dom st) (history st) (trace st).
Definition set_currentPage (v : Js.value) (st : State) : State :=
  mkState (currentLanguage st) v (navData st) (cache st) (storedLanguage st)
          (dom st) (history st) (trace st).
Definition set_navData (d : NavData) (st : State) : State :=
  mkState (currentLanguage st) (currentPage st) d (cache st) (storedLanguage st)
          (dom st) (history st) (trace st).
Definition set_cache (c : Cache) (st : State) : State :=
  mkState (currentLanguage st) (currentPage st) (navData st) c (storedLanguage st)
          (dom st) (history st) (trace st).
Definition set_storedLanguage (v : Js.value) (st : State) : State :=
  mkState (currentLanguage st) (currentPage st) (navData st) (cache st) v
          (dom st) (history st) (trace st).
Definition set_dom (d : Dom) (st : State) : State :=
  mkState (currentLanguage st) (currentPage st) (navData st) (cache st)
          (storedLanguage st) d (history st) (trace st).
Definition set_history (h : list HistoryEntry) (st : State) : State :=
  mkState (currentLanguage st) (currentPage st) (navData st) (cache st)
          (storedLanguage st) (dom st) h (trace st).
Definition set_trace (t : list Event) (st : State) : State :=
  mkState (currentLanguage st) (currentPage st) (navData st) (cache st)
          (storedLanguage st) (dom st) (history st) t.

(** Append one browser call to the trace. *)
Definition emit (e : Event) (st : State) : State :=
  set_trace (trace st ++ [e]) st.

Definition console_error (msg : string) : State -> State := emit (ConsoleError msg).
Definition console_warn (msg : string) : State -> State := emit (ConsoleWarn msg).
Definition console_log (msg : string) : State -> State := emit (ConsoleLog msg).

(** The paths the script has passed to [fetch], oldest first. *)
Definition fetched (st : State) : list string :=
  omap (fun e => match e with Fetch p => Some p | _ => None end) (trace st).

(** ** Language and page resolution *)

Definition validateLanguage (lang : Js.value) : Js.value :=
  if Js.includes CONFIG.supportedLanguages lang then lang else None.

(** [initializeFromURL]; the arguments are [urlParams.get('lang')] and
    [urlParams.get('page')]. *)
Definition initializeFromURL (langParam pageParam : Js.value) (st : State) : State :=
  let lang :=
    Js.or (Js.or (validateLanguage langParam)
                 (validateLanguage (storedLanguage st)))
          (Some CONFIG.defaultLanguage) in
  let st := set_currentLanguage lang st in
  let st := set_currentPage (Js.or pageParam (Some CONFIG.defaultPage)) st in
  set_storedLanguage (Some (Js.to_string (currentLanguage st))) st.

(** ** Navigation rendering *)

Definition isExternalURL (url : Js.value) : bool :=
  Js.truthy url &&
  (Js.startsWith "http://" (Js.to_string url) ||
   Js.startsWith "https://" (Js.to_string url)).

Definition createDropdownToggle (text : string) : Node :=
  Element "a" ["nav-link"; "dropdown-toggle"]
          [("href", "#"); ("role", "button");
           ("data-bs-toggle", "dropdown"); ("aria-expanded", "false")]
          text None [].

Definition createDropdownLink (text : string) (link : Js.value) : Node :=
  if isExternalURL link then
    Element "a" ["dropdown-item"]
            [("href", Js.to_string link); ("target", "_blank");
             ("rel", "noopener noreferrer")]
            text (Some CloseMobileNav) []
  else
    Element "a" ["dropdown-item"] [("href", "#")]
            text (Some (InterceptAndLoad link)) [].

Definition createNavLink (text : string) (link : Js.value) : Node :=
  if isExternalURL link then
    Element "a" ["nav-link"]
            [("href", Js.to_string link); ("target", "_blank");
             ("rel", "noopener noreferrer")]
            text (Some CloseMobileNav) []
  else
    Element "a" ["nav-link"] [("href", "#")]
            text (Some (InterceptAndLoad link)) [].

(** The toggle of a nested sub-menu, built in place by [createDropdownMenu]. *)
Definition subToggle (text : string) : Node :=
  Element "a" ["dropdown-item"; "has-submenu"] [("href", "#")] text None [].

(** The body of the [forEach] in [createDropdownMenu]: the [li] of one item.
    The call [createDropdownMenu(item.sub_menu)] is the inner [ul]. *)
Fixpoint createMenuItem (item : NavItem) : Node :=
  match item with
  | mkNavItem text link (Some sub_menu) =>
      Element "li" ["dropdown-submenu"] [] "" None
              [subToggle text;
               Element "ul" ["dropdown-menu"] [] "" None
                       (List.map createMenuItem sub_menu)]
  | mkNavItem text link None =>
      Element "li" [] [] "" None [createDropdownLink text link]
  end.

Definition createDropdownMenu (items : list NavItem) : Node :=
  Element "ul" ["dropdown-menu"] [] "" None (List.map createMenuItem items).

Definition createNavItem (item : NavItem) : Node :=
  match item_sub_menu item with
  | Some sub_menu =>
      Element "li" ["nav-item"; "dropdown"] [] "" None
              [createDropdownToggle (item_text item);
               createDropdownMenu sub_menu]
  | None =>
      Element "li" ["nav-item"] [] "" None
              [createNavLink (item_text item) (item_link item)]
  end.

(** [updateTextContent(elementId, text)] on the element's text. *)
Definition updateTextContent (element : option string) (text : Js.value)
  : option string :=
  match element with
  | Some old => if Js.truthy text then Some (Js.to_string text) else Some old
  | None => None
  end.

(** What the two [forEach] loops over [navContainers] do to one container:
    emptied if it exists, then one [createNavItem] per item appended. *)
Definition fillContainer (nav_items : option (list NavItem))
           (container : option (list Node)) : option (list Node) :=
  match container with
  | Some _ =>
      match nav_items with
      | Some items => Some (List.map createNavItem items)
      | None => Some []
      end
  | None => None
  end.

Definition renderNavigation (data : NavData) (st : State) : State :=
  let d := dom st in
  set_dom (mkDom (updateTextContent (councilName d) (nd_name data))
                 (updateTextContent (PaymentName d) (nd_payment data))
                 (fillContainer (nd_nav data) (navItem1 d))
                 (fillContainer (nd_nav data) (navItem2 d))
                 (fillContainer (nd_nav data) (footerNav d))
                 (content d) (menuItems d) (languageUI d)) st.

(** ** Exceptions *)

(** How a [try] block ends: it runs to its end, or an exception leaves it
    ([fetch] rejected, a [throw], [text()]/[json()]/[marked.parse] failing).
    Both carry the state reached. *)
Inductive Completion : Type :=
| Normal (st : State)
| Thrown (st : State).

(** ** Navigation loading *)

Definition navPath (lang : string) : string :=
  "static/lang/" +:+ lang +:+ ".json".

(** The [try] block of [loadNavigation]. *)
Definition loadNavigation_try (env : Env) (lang : string) (st : State) : Completion :=
  match nav (cache st) !! lang with
  | Some cached =>
      let st := set_navData cached st in
      Normal (renderNavigation (navData st) st)
  | None =>
      let st := emit (Fetch (navPath lang)) st in
      match fetch env (navPath lang) with
      | NetworkError => Thrown st
      | Http ok _ json =>
          if negb ok then Thrown st
          else match json with
               | None => Thrown st
               | Some data =>
                   let st := set_navData data st in
                   let st := set_cache (mkCache (<[lang := navData st]> (nav (cache st)))
                                                (pages (cache st))) st in
                   Normal (renderNavigation (navData st) st)
               end
      end
  end.

(** The number of [loadNavigation] calls that can still follow a call for
    [lang]: the fallback goes to the default language only. *)
Definition fallbacksLeft (lang : string) : nat :=
  if decide (lang = CONFIG.defaultLanguage) then 0 else 1.

Equations? loadNavigation (env : Env) (lang : string) (st : State) : State
  by wf (fallbacksLeft lang) lt :=
  loadNavigation env lang st with loadNavigation_try env lang st => {
    | Normal st' => st'
    | Thrown st' with decide (lang = CONFIG.defaultLanguage) => {
        | left _ =>
            console_error ("Failed to load navigation for " +:+ lang +:+ ":") st'
        | right _ =>
            loadNavigation env CONFIG.defaultLanguage
              (console_warn ("Falling back to " +:+ CONFIG.defaultLanguage)
                 (console_error ("Failed to load navigation for " +:+ lang +:+ ":") st'))
      }
  }.
Proof.
  unfold fallbacksLeft.
  destruct (decide (lang = CONFIG.defaultLanguage)); [contradiction|].
  destruct (decide (CONFIG.defaultLanguage = CONFIG.defaultLanguage)); [lia|contradiction].
Qed.

(** ** Content loading *)

Definition set_content (html : string) (d : Dom) : Dom :=
  mkDom (councilName d) (PaymentName d) (navItem1 d) (navItem2 d) (footerNav d)
        (Some html) (menuItems d) (languageUI d).

Definition renderContent (html : string) (st : State) : State :=
  match content (dom st) with
  | Some _ => emit ScrollToTop (set_dom (set_content html (dom st)) st)
  | None => st
  end.

Definition updateURL (page lang : Js.value) (st : State) : State :=
  let urlPath := "?page=" +:+ Js.to_string page +:+ "&lang=" +:+ Js.to_string lang in
  set_history (history st ++ [mkEntry page lang urlPath]) st.

Definition dq : string := String "034"%char "".
Definition nl : string := String "010"%char "".

(** The template literal of [showError]. *)
Definition errorPanel (message : string) : string :=
  nl +:+
  "      <div class=" +:+ dq +:+ "alert alert-danger" +:+ dq +:+
      " role=" +:+ dq +:+ "alert" +:+ dq +:+ ">" +:+ nl +:+
  "        <h4 class=" +:+ dq +:+ "alert-heading" +:+ dq +:+ ">Error</h4>" +:+ nl +:+
  "        <p>" +:+ message +:+ "</p>" +:+ nl +:+
  "        <hr>" +:+ nl +:+
  "        <p class=" +:+ dq +:+ "mb-0" +:+ dq +:+
      ">Please try refreshing the page or contact support if the problem persists.</p>"
      +:+ nl +:+
  "      </div>" +:+ nl +:+
  "    ".

Definition showError (message : string) (st : State) : State :=
  let st := console_error message st in
  match content (dom st) with
  | Some _ => set_dom (set_content (errorPanel message) (dom st)) st
  | None => st
  end.

(** The file a page is fetched as: [contact] and [about], with or without
    a [.html], are read from their markdown source. *)
Definition fileNameOf (pageName : string) : string :=
  if Js.includes ["contact"; "about"] (Some (Js.replace ".html" "" pageName))
  then Js.replace ".html" "" pageName +:+ ".md"
  else pageName.

Definition pagePath (lang : Js.value) (fileName : string) : string :=
  "pages/" +:+ Js.to_string lang +:+ "/" +:+ fileName.

Definition cacheKeyOf (lang : Js.value) (pageName : string) : string :=
  Js.to_string lang +:+ "-" +:+ pageName.

(** [processedContent]: [None] when [marked.parse] throws. *)
Definition processContent (env : Env) (fileName content : string) : option string :=
  match String.eqb (Js.split_dot_pop fileName) "md", marked env with
  | true, Some parse => parse content
  | _, _ => Some content
  end.

(** The [try] block of [loadContent]; [pageName] and [lang] are the values
    after the defaults of its first two lines. *)
Definition loadContent_try (env : Env) (pageName : string) (lang : Js.value)
           (st : State) : Completion :=
  let cacheKey := cacheKeyOf lang pageName in
  if Js.truthy (pages (cache st) !! cacheKey) then
    let st := renderContent (Js.to_string (pages (cache st) !! cacheKey)) st in
    let st := updateURL (Some pageName) lang st in
    Normal (set_currentPage (Some pageName) st)
  else
    let fileName := fileNameOf pageName in
    let filePath := pagePath lang fileName in
    let st := emit (Fetch filePath) st in
    match fetch env filePath with
    | NetworkError => Thrown st
    | Http ok text _ =>
        if negb ok then Thrown st
        else match text with
             | None => Thrown st
             | Some content =>
                 match processContent env fileName content with
                 | None => Thrown st
                 | Some processedContent =>
                     let st := set_cache
                                 (mkCache (nav (cache st))
                                          (<[cacheKey := processedContent]> (pages (cache st))))
                                 st in
                     let st := renderContent processedContent st in
                     let st := updateURL (Some pageName) lang st in
                     Normal (set_currentPage (Some pageName) st)
                 end
             end
    end.

(** [lang = lang || currentLanguage] *)
Definition langOrCurrent (lang : Js.value) (st : State) : Js.value :=
  Js.or lang (currentLanguage st).

(** [if (!pageName) pageName = CONFIG.defaultPage] *)
Definition pageOrDefault (pageName : Js.value) : string :=
  if negb (Js.truthy pageName) then CONFIG.defaultPage else Js.to_string pageName.

Definition loadContent (env : Env) (pageName lang : Js.value) (st : State) : State :=
  let lang := langOrCurrent lang st in
  let pageName := pageOrDefault pageName in
  if isExternalURL (Some pageName) then
    emit (WindowOpen pageName "_blank" "noopener,noreferrer") st
  else
    match loadContent_try env pageName lang st with
    | Normal st' => st'
    | Thrown st' =>
        showError ("Failed to load page: " +:+ pageName)
                  (console_error ("Failed to load content: " +:+ pageName) st')
    end.

(** ** Language switching *)

(** [updateLanguageUI] decorates the language selector of the header (its label
    and the active item) for [currentLanguage]; the header's markup is not part
    of the script, so only the language it is decorated for is kept. *)
Definition updateLanguageUI (st : State) : State :=
  let d := dom st in
  set_dom (mkDom (councilName d) (PaymentName d) (navItem1 d) (navItem2 d)
                 (footerNav d) (content d) (menuItems d) (currentLanguage st)) st.

Definition showLoading : State -> State := console_log "Loading...".
Definition hideLoading : State -> State := console_log "Loading complete".

(** [initializeApp]; neither call it awaits can reject. *)
Definition initializeApp (env : Env) (st : State) : State :=
  let st := loadNavigation env (Js.to_string (currentLanguage st)) st in
  let st := loadContent env (currentPage st) (currentLanguage st) st in
  updateLanguageUI st.

(** [setLanguage].  The two loads under [Promise.all] write disjoint parts of
    the state; they are run one after the other, navigation first. *)
Definition setLanguage (env : Env) (newLang : Js.value) (st : State) : State :=
  if negb (Js.truthy (validateLanguage newLang))
     || bool_decide (newLang = currentLanguage st)
  then st
  else
    let st := showLoading st in
    let st := set_currentLanguage newLang st in
    let st := set_storedLanguage (Some (Js.to_string newLang)) st in
    let st := loadNavigation env (Js.to_string newLang) st in
    let st := loadContent env (currentPage st) newLang st in
    let st := updateLanguageUI st in
    let st := updateURL (currentPage st) newLang st in
    hideLoading st.

(** ** History and clicks *)

(** [event.state] of a popstate event, when it is an object. *)
Record PopState : Type := mkPopState {
  ps_page : Js.value;
  ps_lang : Js.value
}.

(** The popstate listener of [setupEventListeners]. *)
Definition onPopState (env : Env) (state : option PopState) (st : State) : State :=
  match state with
  | Some s =>
      let st := set_currentLanguage
                  (Js.or (ps_lang s) (Some CONFIG.defaultLanguage)) st in
      let st := set_currentPage (Js.or (ps_page s) (Some CONFIG.defaultPage)) st in
      initializeApp env st
  | None => st
  end.

Definition set_menuItems (show : bool) (d : Dom) : Dom :=
  mkDom (councilName d) (PaymentName d) (navItem1 d) (navItem2 d) (footerNav d)
        (content d) (Some show) (languageUI d).

Definition toggleMobileNav (st : State) : State :=
  match menuItems (dom st) with
  | Some show => set_dom (set_menuItems (negb show) (dom st)) st
  | None => st
  end.

Definition closeMobileNav (st : State) : State :=
  match menuItems (dom st) with
  | Some _ => set_dom (set_menuItems false (dom st)) st
  | None => st
  end.

(** A click on a link the script created. *)
Definition click (env : Env) (l : Listener) (st : State) : State :=
  match l with
  | CloseMobileNav => closeMobileNav st
  | InterceptAndLoad link =>
      let st := closeMobileNav st in
      if Js.truthy link then loadContent env link (currentLanguage st) st else st
  end.

(** ** Year switch *)

(** [classList.remove(c)] and [classList.add(c)] on the class names of an
    element. *)
Definition classList_remove (c : string) (classes : list string) : list string :=
  List.filter (fun x => negb (String.eqb x c)) classes.

Definition classList_add (c : string) (classes : list string) : list string :=
  if existsb (String.eqb c) classes then classes else (classes ++ [c])%list.

(** The part of the document [switchYear] works on: the class names of the
    elements that have an id, by id, and the class names of the [button]
    elements below the parent of the button that was clicked, in document
    order.  The buttons are taken to carry none of the ids of the sections. *)
Record YearWidget : Type := mkYearWidget {
  byId : gmap string (list string);
  buttons : list (list string)
}.

(** The id [`${section}-${year}`]. *)
Definition yearId (section year : string) : string := section +:+ "-" +:+ year.

(** [switchYear(section, year, btn)], the button [btn] given by its position
    among the buttons of its parent.  The selector
    [#section-2023, #section-2024, #section-2025] is read as the elements with
    these three ids, which is what it selects when [section] is a CSS
    identifier. *)
Definition switchYear (section year : string) (btn : nat) (w : YearWidget) : YearWidget :=
  let hide := alter (classList_remove "active") in
  let elements := hide (yearId section "2023") (byId w) in
  let elements := hide (yearId section "2024") elements in
  let elements := hide (yearId section "2025") elements in
  let elements := alter (classList_add "active") (yearId section year) elements in
  let all := List.map (fun classes =>
                         classList_add "btn-outline-primary"
                                       (classList_remove "btn-primary" classes))
                      (buttons w) in
  let all := alter (fun classes =>
                      classList_add "btn-primary"
                                    (classList_remove "btn-outline-primary" classes))
                   btn all in
  mkYearWidget elements all.

(** * Vocabulary of the properties *)

(** ** Languages *)

(** Membership in the closed set of supported languages. *)
Definition supported (v : Js.value) : Prop :=
  exists l, v = Some l /\ In l CONFIG.supportedLanguages.

(** Membership is decidable. *)
Definition supported_dec (v : Js.value) : {supported v} + {~ supported v}.
Proof.
  destruct v as [l|].
  - destruct (in_dec String.string_dec l CONFIG.supportedLanguages) as [Hin | Hout].
    + left. exists l. split; [reflexivity | exact Hin].
    + right. intros (l' & Heq & Hin). injection Heq as <-. exact (Hout Hin).
  - right. intros (l & Heq & _). discriminate Heq.
Defined.

(** The first valid value of a list of candidates, by the words of the
    specification: candidates are tried in order, one that is missing or not a
    supported language is discarded, and the default is what is left. *)
Fixpoint firstValid (candidates : list Js.value) (default : string) : string :=
  match candidates with
  | [] => default
  | c :: rest =>
      if supported_dec c then Js.to_string c else firstValid rest default
  end.

(** ** Structure of a rendered item *)

Section NavItem_induction.
Variable P : NavItem -> Prop.
Hypothesis P_link : forall text link, P (mkNavItem text link None).
Hypothesis P_menu : forall text link sub_menu,
    Forall P sub_menu -> P (mkNavItem text link (Some sub_menu)).

(** Induction over an item and, through its [sub_menu], over every item
    nested in it. *)
Fixpoint NavItem_nested_ind (item : NavItem) : P item :=
  match item with
  | mkNavItem text link None => P_link text link
  | mkNavItem text link (Some sub_menu) =>
      P_menu text link sub_menu
        ((fix all (l : list NavItem) : Forall P l :=
            match l with
            | [] => @List.Forall_nil _ P
            | i :: l' => @List.Forall_cons _ P i l' (NavItem_nested_ind i) (all l')
            end) sub_menu)
  end.
End NavItem_induction.

(** A link element that is not the toggle of a menu. *)
Definition isLink (n : Node) : Prop :=
  tagName n = "a" /\ childNodes n = []
  /\ ~ In "dropdown-toggle" (classList n) /\ ~ In "has-submenu" (classList n).

(** The toggle of a dropdown: of a top-level item or of a nested sub-menu. *)
Definition isToggle (n : Node) : Prop :=
  tagName n = "a" /\ childNodes n = []
  /\ (In "dropdown-toggle" (classList n) \/ In "has-submenu" (classList n)).

(** [rendersItem item li]: the list element [li] has the structure the
    specification gives to [item].  Without a [sub_menu] it holds one link;
    with one it holds a toggle and a dropdown list with one child per
    sub-item, each child having this structure for its sub-item. *)
Inductive rendersItem : NavItem -> Node -> Prop :=
| renders_link text link li a :
    tagName li = "li" ->
    childNodes li = [a] ->
    isLink a -> textContent a = text ->
    rendersItem (mkNavItem text link None) li
| renders_menu text link sub_menu li toggle menu :
    tagName li = "li" ->
    childNodes li = [toggle; menu] ->
    isToggle toggle -> textContent toggle = text ->
    tagName menu = "ul" -> In "dropdown-menu" (classList menu) ->
    length (childNodes menu) = length sub_menu ->
    Forall2 rendersItem sub_menu (childNodes menu) ->
    rendersItem (mkNavItem text link (Some sub_menu)) li.

(** ** Outcomes of a fetch *)

(** A fetch that does not deliver a navigation document: the request is
    rejected, the response is not [ok], or its body is not JSON. *)
Definition navFetchFailed (r : Response) : bool :=
  match r with
  | NetworkError => true
  | Http ok _ json => negb ok || negb (bool_decide (is_Some json))
  end.

(** The navigation document [loadNavigation_try] can get hold of for [lang]. *)
Definition navAvailable (env : Env) (lang : string) (st : State) : option NavData :=
  match nav (cache st) !! lang with
  | Some cached => Some cached
  | None => match fetch env (navPath lang) with
            | Http true _ (Some data) => Some data
            | _ => None
            end
  end.

(** The fallbacks started so far: each is announced by one warning. *)
Definition isFallback (e : Event) : bool :=
  match e with
  | ConsoleWarn msg => String.eqb msg ("Falling back to " +:+ CONFIG.defaultLanguage)
  | _ => false
  end.

Definition fallbacks (st : State) : nat :=
  length (List.filter isFallback (trace st)).

(** ** Sample networks and documents *)

(** A network that serves the Sinhala navigation document only. *)
Definition siNav : NavData :=
  mkNavData (Some "Council") (Some "Payments")
            (Some [mkNavItem "Home" (Some "home.html") None]).

Definition siOnly : Env :=
  mkEnv (fun path => if String.eqb path "static/lang/si.json"
                     then Http true None (Some siNav)
                     else Http false None None)
        None.

Definition emptyPage : Dom :=
  mkDom (Some "") (Some "") (Some []) (Some []) (Some []) (Some "") (Some false) None.

(** ** Outcomes of a page load *)

(** A fetch of a page that yields no content to render: the request is
    rejected, the response is not [ok], its text cannot be read, or
    [marked.parse] throws on it. *)
Definition pageFetchFailed (env : Env) (fileName : string) (r : Response) : bool :=
  match r with
  | NetworkError => true
  | Http ok text _ =>
      negb ok ||
      match text with
      | None => true
      | Some content =>
          negb (bool_decide (is_Some (processContent env fileName content)))
      end
  end.

(** What [showError] leaves in the content container. *)
Definition errorShown (message : string) (before : option string) : option string :=
  match before with
  | Some _ => Some (errorPanel message)
  | None => None
  end.

(** A network on which every request is rejected. *)
Definition offline : Env := mkEnv (fun _ => NetworkError) None.

(** The state after a page was fetched and [processed] is what is to be
    shown: cached, rendered, pushed on the history, made the current page. *)
Definition pageLoaded (pageName : string) (lang : Js.value) (processed : string)
           (st : State) : State :=
  let st := emit (Fetch (pagePath lang (fileNameOf pageName))) st in
  let st := set_cache (mkCache (nav (cache st))
                               (<[cacheKeyOf lang pageName := processed]>
                                  (pages (cache st)))) st in
  let st := renderContent processed st in
  let st := updateURL (Some pageName) lang st in
  set_currentPage (Some pageName) st.

(** A converter to tell converted text from its source. *)
Definition paragraph : string -> option string :=
  fun md => Some ("<p>" +:+ md +:+ "</p>").

(** A network that answers every request with the same markdown text. *)
Definition serving (text : string) (converter : option (string -> option string)) : Env :=
  mkEnv (fun _ => Http true (Some text) None) converter.

(** What navigation loading leaves alone. *)
Definition sameSelection (st st' : State) : Prop :=
  currentLanguage st' = currentLanguage st /\ currentPage st' = currentPage st.

(** ** Parts of the state *)

(** What navigation loading reads and writes: the navigation document, its
    cache, and the elements of the page that show it. *)
Definition navPart (st : State) :=
  (navData st, nav (cache st),
   councilName (dom st), PaymentName (dom st),
   navItem1 (dom st), navItem2 (dom st), footerNav (dom st)).

(** What content loading writes: the current page, the page cache, the
    content container and the history. *)
Definition pagePart (st : State) :=
  (currentPage st, pages (cache st), content (dom st), history st).

(** What neither of the two loads writes. *)
Definition restPart (st : State) :=
  (currentLanguage st, storedLanguage st, menuItems (dom st), languageUI (dom st)).

(** The content [loadContent_try] can get hold of for a page: the cache entry
    when it is truthy, else what a successful fetch gives once processed. *)
Definition pageAvailable (env : Env) (pageName : string) (lang : Js.value)
           (st : State) : option string :=
  if Js.truthy (pages (cache st) !! cacheKeyOf lang pageName)
  then pages (cache st) !! cacheKeyOf lang pageName
  else match fetch env (pagePath lang (fileNameOf pageName)) with
       | Http true (Some text) _ => processContent env (fileNameOf pageName) text
       | _ => None
       end.

(** The history entry [updateURL(page, lang)] pushes. *)
Definition entryOf (page lang : Js.value) : HistoryEntry :=
  mkEntry page lang ("?page=" +:+ Js.to_string page +:+ "&lang=" +:+ Js.to_string lang).

(** ** Links of a rendered tree *)

(** An element and all the elements below it, in document order. *)
Fixpoint descendants (n : Node) : list Node :=
  match n with
  | Element _ _ _ _ _ children =>
      n :: (fix below (l : list Node) : list Node :=
              match l with
              | [] => []
              | c :: rest => (descendants c ++ below rest)%list
              end) children
  end.

(** [element.getAttribute(name)] on the attributes the script has set. *)
Definition getAttribute (name : string) (n : Node) : option string :=
  match List.find (fun kv => String.eqb (fst kv) name) (attributes n) with
  | Some kv => Some (snd kv)
  | None => None
  end.

(** A link that stays on the site: it points to [#], opens no tab, and a click
    on it either does nothing more (a toggle) or loads a page that is not an
    external URL. *)
Definition staysOnSite (a : Node) : Prop :=
  getAttribute "href" a = Some "#"
  /\ getAttribute "target" a = None
  /\ (onclick a = None
      \/ exists link, onclick a = Some (InterceptAndLoad link)
                      /\ isExternalURL link = false).

(** A link that leaves the site: it points to an external URL, opens it in a
    new tab without opener and referrer, and a click loads nothing. *)
Definition leavesSite (a : Node) : Prop :=
  exists url, isExternalURL (Some url) = true
              /\ getAttribute "href" a = Some url
              /\ getAttribute "target" a = Some "_blank"
              /\ getAttribute "rel" a = Some "noopener noreferrer"
              /\ onclick a = Some CloseMobileNav.

(** ** A session *)

(** What can happen after the start: the entry points the script exposes and
    the listeners it registers. *)
Inductive Action : Type :=
| DoSetLanguage (newLang : Js.value)           (* window.setLanguage *)
| DoLoadContent (pageName lang : Js.value)     (* window.loadContent *)
| DoClick (l : Listener)                       (* a link of the navigation *)
| BackOrForward (state : option PopState)      (* a popstate event *)
| DoToggleMobileNav                            (* window.toggleMobileNav *)
| DoCloseMobileNav.                            (* window.closeMobileNav, Escape, outside click *)

Definition perform (env : Env) (a : Action) (st : State) : State :=
  match a with
  | DoSetLanguage newLang => setLanguage env newLang st
  | DoLoadContent pageName lang => loadContent env pageName lang st
  | DoClick l => click env l st
  | BackOrForward state => onPopState env state st
  | DoToggleMobileNav => toggleMobileNav st
  | DoCloseMobileNav => closeMobileNav st
  end.

(** The actions a page of the site can perform in a state: [loadContent] is
    called from markup without a language or with a supported one, and a back
    or forward step arrives at the first entry of the session, which has no
    state, or at an entry the script has pushed. *)
Definition admissible (st : State) (a : Action) : Prop :=
  match a with
  | DoLoadContent _ lang => Js.truthy lang = false \/ supported lang
  | BackOrForward (Some s) =>
      exists e, In e (history st) /\ ps_page s = h_page e /\ ps_lang s = h_lang e
  | _ => True
  end.

(** The states a session can reach from [start], the network being free to
    change from one action to the next. *)
Inductive reachable (start : State) : State -> Prop :=
| reach_start : reachable start start
| reach_step (st : State) (env : Env) (a : Action) :
    reachable start st -> admissible st a -> reachable start (perform env a st).

(** A history entry with a supported language and a page. *)
Definition goodEntry (e : HistoryEntry) : Prop :=
  supported (h_lang e) /\ Js.truthy (h_page e) = true.

(** The language variables hold supported languages, there is a current page,
    and so for every entry of the history. *)
Definition consistent (st : State) : Prop :=
  supported (currentLanguage st)
  /\ supported (storedLanguage st)
  /\ Js.truthy (currentPage st) = true
  /\ Forall goodEntry (history st).

(** ** Year sections *)

(** The years whose sections [switchYear] hides. *)
Definition switchedYears : list string := ["2023"; "2024"; "2025"].

(** A sufficient test for a CSS identifier: a letter or an underscore, then
    letters, digits, hyphens and underscores. *)
Definition identStart (c : ascii) : bool :=
  let n := nat_of_ascii c in
  Nat.leb 65 n && Nat.leb n 90 || Nat.leb 97 n && Nat.leb n 122 || Nat.eqb n 95.

Definition identPart (c : ascii) : bool :=
  let n := nat_of_ascii c in
  identStart c || Nat.leb 48 n && Nat.leb n 57 || Nat.eqb n 45.

Definition cssIdentifier (s : string) : bool :=
  match s with
  | EmptyString => false
  | String c rest => identStart c && forallb identPart (list_ascii_of_string rest)
  end.

(** The element with the given id is shown: it has the class [active]. *)
Definition shown (w : YearWidget) (id : string) : Prop :=
  exists classes, byId w !! id = Some classes /\ In "active" classes.

(** ** The error panel around its message *)

(** The markup [showError] puts before the message. *)
Definition panelBefore : string :=
  nl +:+
  "      <div class=" +:+ dq +:+ "alert alert-danger" +:+ dq +:+
      " role=" +:+ dq +:+ "alert" +:+ dq +:+ ">" +:+ nl +:+
  "        <h4 class=" +:+ dq +:+ "alert-heading" +:+ dq +:+ ">Error</h4>" +:+ nl +:+
  "        <p>".

(** The markup [showError] puts after the message. *)
Definition panelAfter : string :=
  "</p>" +:+ nl +:+
  "        <hr>" +:+ nl +:+
  "        <p class=" +:+ dq +:+ "mb-0" +:+ dq +:+
      ">Please try refreshing the page or contact support if the problem persists.</p>"
      +:+ nl +:+
  "      </div>" +:+ nl +:+
  "    ".

(** * Properties *)

(** ** The string helpers on the names the script sees *)

Example replace_html :
  Js.replace ".html" "" "about.html" = "about"
  /\ Js.replace ".html" "" "home.html" = "home"
  /\ Js.replace ".html" "" "contact" = "contact"
  /\ Js.replace ".html" "" "a.html.html" = "a.html".
Proof. repeat split. Qed.

Example split_dot_pop_extension :
  Js.split_dot_pop "about.md" = "md"
  /\ Js.split_dot_pop "home.html" = "html"
  /\ Js.split_dot_pop "archive.2024.md" = "md"
  /\ Js.split_dot_pop "news" = "news"
  /\ Js.split_dot_pop "draft." = "".
Proof. repeat split. Qed.

Example fileNameOf_pages :
  fileNameOf "about" = "about.md"
  /\ fileNameOf "contact.html" = "contact.md"
  /\ fileNameOf "home.html" = "home.html"
  /\ fileNameOf "about-us.html" = "about-us.html".
Proof. repeat split. Qed.

(** ** Supported languages *)

Lemma includes_In (arr : list string) (l : string) :
  Js.includes arr (Some l) = true <-> In l arr.
Proof.
  simpl. rewrite existsb_exists. split.
  - intros (x & Hin & Heq). apply String.eqb_eq in Heq. now subst.
  - intros Hin. exists l. split; [assumption | apply String.eqb_refl].
Qed.

Lemma includes_supported (v : Js.value) :
  Js.includes CONFIG.supportedLanguages v = true <-> supported v.
Proof.
  destruct v as [l|].
  - rewrite includes_In. split.
    + intros Hin. exists l. auto.
    + intros (l' & Heq & Hin). now injection Heq as ->.
  - split; [discriminate | intros (l & Heq & _); discriminate].
Qed.

Lemma supported_truthy (v : Js.value) : supported v -> Js.truthy v = true.
Proof.
  intros (l & -> & Hin). simpl in Hin.
  destruct Hin as [<- | [<- | [<- | []]]]; reflexivity.
Qed.

Lemma validateLanguage_supported (v : Js.value) :
  supported v -> validateLanguage v = v.
Proof.
  intros H. unfold validateLanguage.
  apply includes_supported in H. now rewrite H.
Qed.

Lemma validateLanguage_unsupported (v : Js.value) :
  ~ supported v -> validateLanguage v = None.
Proof.
  intros H. unfold validateLanguage.
  destruct (Js.includes CONFIG.supportedLanguages v) eqn:E; [|reflexivity].
  apply includes_supported in E. contradiction.
Qed.

Lemma firstValid_supported (candidates : list Js.value) (default : string) :
  In default CONFIG.supportedLanguages ->
  supported (Some (firstValid candidates default)).
Proof.
  intros Hdef. induction candidates as [|c rest IH]; simpl.
  - exists default. auto.
  - destruct (supported_dec c) as [(l & -> & Hin) | _]; [|exact IH].
    exists l. auto.
Qed.

(** The chain of [||] in [initializeFromURL] picks the first valid value. *)
Lemma resolve_firstValid (langParam stored : Js.value) :
  Js.or (Js.or (validateLanguage langParam) (validateLanguage stored))
        (Some CONFIG.defaultLanguage)
  = Some (firstValid [langParam; stored] CONFIG.defaultLanguage).
Proof.
  simpl firstValid.
  destruct (supported_dec langParam) as [Hp | Hp].
  - rewrite (validateLanguage_supported _ Hp).
    unfold Js.or at 2. rewrite (supported_truthy _ Hp).
    unfold Js.or. rewrite (supported_truthy _ Hp).
    destruct Hp as (l & -> & _). reflexivity.
  - rewrite (validateLanguage_unsupported _ Hp).
    unfold Js.or at 2. simpl Js.truthy. cbv iota.
    destruct (supported_dec stored) as [Hs | Hs].
    + rewrite (validateLanguage_supported _ Hs).
      unfold Js.or. rewrite (supported_truthy _ Hs).
      destruct Hs as (l & -> & _). reflexivity.
    + rewrite (validateLanguage_unsupported _ Hs). reflexivity.
Qed.

(** C1. On startup the active language is the first valid value among the URL's
    [lang] parameter, the stored preference and the default ['si']; it is a
    supported language whatever the two inputs are, and it is written back as
    the stored preference. *)
Theorem initializeFromURL_language (langParam pageParam : Js.value) (st : State) :
  let st' := initializeFromURL langParam pageParam st in
  currentLanguage st'
    = Some (firstValid [langParam; storedLanguage st] CONFIG.defaultLanguage)
  /\ supported (currentLanguage st')
  /\ storedLanguage st' = currentLanguage st'.
Proof.
  cbn zeta. unfold initializeFromURL. cbn [currentLanguage storedLanguage
    set_currentLanguage set_currentPage set_storedLanguage].
  rewrite resolve_firstValid. cbn [Js.to_string].
  repeat split.
  apply firstValid_supported. simpl. auto.
Qed.

(** ** The trace *)

Lemma fetched_emit (e : Event) (st : State) :
  fetched (emit e st)
  = (fetched st ++ match e with Fetch p => [p] | _ => [] end)%list.
Proof.
  unfold fetched, emit. simpl. rewrite omap_app. simpl.
  destruct e; reflexivity.
Qed.

(** ** External links *)

(** C5. A page identifier that begins with [http://] or [https://] is opened in
    a new tab and nothing else happens: the only change of the state is the
    [window.open] call; nothing is fetched, the caches, the current page and
    language, the history and the document stay as they were. *)
Theorem loadContent_external (env : Env) (url : string) (lang : Js.value) (st : State) :
  (exists rest, url = "http://" +:+ rest) \/ (exists rest, url = "https://" +:+ rest) ->
  let st' := loadContent env (Some url) lang st in
  st' = emit (WindowOpen url "_blank" "noopener,noreferrer") st
  /\ trace st' = (trace st ++ [WindowOpen url "_blank" "noopener,noreferrer"])%list
  /\ fetched st' = fetched st
  /\ cache st' = cache st
  /\ currentPage st' = currentPage st
  /\ currentLanguage st' = currentLanguage st
  /\ history st' = history st
  /\ dom st' = dom st.
Proof.
  intros Hurl. cbn zeta.
  assert (Hopen : loadContent env (Some url) lang st
                  = emit (WindowOpen url "_blank" "noopener,noreferrer") st).
  { assert (Hext : isExternalURL (Some url) = true)
      by (destruct Hurl as [[rest ->] | [rest ->]]; destruct rest; reflexivity).
    assert (Htruthy : Js.truthy (Some url) = true)
      by (destruct Hurl as [[rest ->] | [rest ->]]; reflexivity).
    unfold loadContent, pageOrDefault. rewrite Htruthy. cbn [negb Js.to_string].
    rewrite Hext. reflexivity. }
  rewrite Hopen. repeat split.
  rewrite fetched_emit. apply app_nil_r.
Qed.

Lemma loadContent_external_witness :
  let env := mkEnv (fun _ => NetworkError) None in
  let st := initialState None (mkDom None None None None None (Some "") None None) in
  fetched (loadContent env (Some "https://example.org") (Some "en") st) = fetched st
  /\ cache (loadContent env (Some "https://example.org") (Some "en") st) = cache st.
Proof.
  intros env st.
  pose proof (loadContent_external env "https://example.org" (Some "en") st
                (or_intror (ex_intro _ "example.org" eq_refl))) as H.
  cbn zeta in H. split; apply H.
Defined.

(** ** Switching language *)

(** C8. [setLanguage(N)] with [N] outside the supported set, or equal to the
    active language, returns at once: the state is the one it was called in, so
    the language, the stored preference, both caches, the current page and the
    history are unchanged and nothing was fetched. *)
Theorem setLanguage_noop (env : Env) (N : Js.value) (st : State) :
  ~ supported N \/ N = currentLanguage st ->
  setLanguage env N st = st.
Proof.
  intros [Hn | Heq]; unfold setLanguage.
  - rewrite (validateLanguage_unsupported _ Hn). reflexivity.
  - rewrite (bool_decide_eq_true_2 _ Heq). rewrite orb_true_r. reflexivity.
Qed.

Lemma setLanguage_noop_witness :
  let env := mkEnv (fun _ => NetworkError) None in
  let st := set_currentLanguage (Some "en")
              (initialState (Some "en") (mkDom None None None None None (Some "") None None)) in
  setLanguage env (Some "fr") st = st /\ setLanguage env (Some "en") st = st.
Proof.
  intros env st. split.
  - apply (setLanguage_noop env (Some "fr") st). left.
    intros (l & Heq & Hin). injection Heq as <-. simpl in Hin.
    destruct Hin as [H | [H | [H | []]]]; discriminate H.
  - apply (setLanguage_noop env (Some "en") st). right. reflexivity.
Defined.

(** ** Rendering of navigation items *)

Lemma createMenuItem_unfold (item : NavItem) :
  createMenuItem item
  = match item_sub_menu item with
    | Some sub_menu =>
        Element "li" ["dropdown-submenu"] [] "" None
                [subToggle (item_text item); createDropdownMenu sub_menu]
    | None =>
        Element "li" [] [] "" None
                [createDropdownLink (item_text item) (item_link item)]
    end.
Proof. destruct item as [text link [sub_menu|]]; reflexivity. Qed.

Lemma createDropdownMenu_children (items : list NavItem) :
  length (childNodes (createDropdownMenu items)) = length items.
Proof. unfold createDropdownMenu. simpl. apply length_map. Qed.

Lemma createNavLink_isLink (text : string) (link : Js.value) :
  isLink (createNavLink text link) /\ textContent (createNavLink text link) = text.
Proof.
  unfold createNavLink, isLink.
  destruct (isExternalURL link); simpl; repeat split;
    intros [H | []]; discriminate H.
Qed.

Lemma createDropdownLink_isLink (text : string) (link : Js.value) :
  isLink (createDropdownLink text link)
  /\ textContent (createDropdownLink text link) = text.
Proof.
  unfold createDropdownLink, isLink.
  destruct (isExternalURL link); simpl; repeat split;
    intros [H | []]; discriminate H.
Qed.

Lemma Forall2_map_r_of_Forall {A B : Type} (R : A -> B -> Prop) (f : A -> B)
      (l : list A) :
  Forall (fun x => R x (f x)) l -> Forall2 R l (List.map f l).
Proof. induction 1; simpl; constructor; assumption. Qed.

(** Every entry of a dropdown menu, at any depth, has the structure. *)
Lemma createMenuItem_renders (item : NavItem) :
  rendersItem item (createMenuItem item).
Proof.
  induction item as [text link | text link sub_menu IH] using NavItem_nested_ind.
  - destruct (createDropdownLink_isLink text link) as [Hl Ht].
    eapply renders_link; simpl; eauto.
  - eapply renders_menu with (toggle := subToggle text)
                             (menu := createDropdownMenu sub_menu).
    all: try reflexivity.
    + unfold isToggle, subToggle. simpl. tauto.
    + simpl. tauto.
    + apply createDropdownMenu_children.
    + unfold createDropdownMenu. simpl.
      apply Forall2_map_r_of_Forall. exact IH.
Qed.

(** C7, as the code has it.  A navigation item without a [sub_menu] array is
    rendered as a list element with exactly one link in it; an item with a
    [sub_menu] array, of any length, the empty array included, as a list
    element with a dropdown toggle and a dropdown list that has as many
    children as the array has sub-items, and every child has this structure
    again for its sub-item, at every depth. *)
Theorem createNavItem_renders (item : NavItem) :
  rendersItem item (createNavItem item).
Proof.
  destruct item as [text link [sub_menu|]]; unfold createNavItem; simpl.
  - eapply renders_menu with (toggle := createDropdownToggle text)
                             (menu := createDropdownMenu sub_menu).
    all: try reflexivity.
    + unfold isToggle, createDropdownToggle. simpl. tauto.
    + simpl. tauto.
    + apply createDropdownMenu_children.
    + unfold createDropdownMenu. simpl.
      apply Forall2_map_r_of_Forall.
      apply Forall_forall. intros x _. apply createMenuItem_renders.
  - destruct (createNavLink_isLink text link) as [Hl Ht].
    eapply renders_link; simpl; eauto.
Qed.

(** C7 as stated fails for an item whose [sub_menu] is the empty array: it has
    no sub-items, and it is rendered as a list element with a toggle and an
    empty dropdown list; there is no link in it. *)
Lemma createNavItem_no_sub_items_counterexample :
  let item := mkNavItem "Reports" (Some "reports.html") (Some []) in
  item_sub_menu item = Some []
  /\ childNodes (createNavItem item)
     = [createDropdownToggle "Reports"; createDropdownMenu []]
  /\ isToggle (createDropdownToggle "Reports")
  /\ childNodes (createDropdownMenu []) = []
  /\ Forall (fun n => ~ isLink n) (childNodes (createNavItem item))
  /\ ~ (exists a, childNodes (createNavItem item) = [a] /\ isLink a).
Proof.
  cbn zeta. split; [reflexivity|]. split; [reflexivity|].
  split; [unfold isToggle; simpl; tauto|]. split; [reflexivity|].
  split.
  - repeat constructor.
    + intros (_ & _ & Hno & _). apply Hno. simpl. auto.
    + intros (Htag & _). discriminate Htag.
  - intros (a & Heq & _). discriminate Heq.
Qed.

Example createNavItem_nested :
  createNavItem
    (mkNavItem "Services" None
       (Some [mkNavItem "Taxes" (Some "tax.html") None;
              mkNavItem "More" None
                (Some [mkNavItem "Site" (Some "https://example.org") None])]))
  = Element "li" ["nav-item"; "dropdown"] [] "" None
      [createDropdownToggle "Services";
       Element "ul" ["dropdown-menu"] [] "" None
         [Element "li" [] [] "" None [createDropdownLink "Taxes" (Some "tax.html")];
          Element "li" ["dropdown-submenu"] [] "" None
            [subToggle "More";
             Element "ul" ["dropdown-menu"] [] "" None
               [Element "li" [] [] "" None
                  [createDropdownLink "Site" (Some "https://example.org")]]]]].
Proof. reflexivity. Qed.

(** C10. An item whose [sub_menu] is an empty array takes the sub-menu branch:
    it is rendered as a dropdown toggle with a dropdown menu of zero items, and
    not as the plain link the same item without a [sub_menu] gets. *)
Theorem createNavItem_empty_sub_menu (text : string) (link : Js.value) :
  createNavItem (mkNavItem text link (Some []))
  = Element "li" ["nav-item"; "dropdown"] [] "" None
      [createDropdownToggle text;
       Element "ul" ["dropdown-menu"] [] "" None []]
  /\ childNodes (createDropdownMenu []) = []
  /\ createNavItem (mkNavItem text link (Some []))
     <> createNavItem (mkNavItem text link None).
Proof.
  repeat split. unfold createNavItem. simpl. discriminate.
Qed.

(** ** Navigation fallback *)

Lemma loadNavigation_normal (env : Env) (lang : string) (st st' : State) :
  loadNavigation_try env lang st = Normal st' ->
  loadNavigation env lang st = st'.
Proof. intros H. simp loadNavigation. rewrite H. reflexivity. Qed.

Lemma loadNavigation_thrown_default (env : Env) (st st' : State) :
  loadNavigation_try env CONFIG.defaultLanguage st = Thrown st' ->
  loadNavigation env CONFIG.defaultLanguage st
  = console_error ("Failed to load navigation for " +:+ CONFIG.defaultLanguage +:+ ":") st'.
Proof. intros H. simp loadNavigation. rewrite H. reflexivity. Qed.

Lemma loadNavigation_thrown_other (env : Env) (lang : string) (st st' : State) :
  lang <> CONFIG.defaultLanguage ->
  loadNavigation_try env lang st = Thrown st' ->
  loadNavigation env lang st
  = loadNavigation env CONFIG.defaultLanguage
      (console_warn ("Falling back to " +:+ CONFIG.defaultLanguage)
         (console_error ("Failed to load navigation for " +:+ lang +:+ ":") st')).
Proof.
  intros Hne H. simp loadNavigation. rewrite H. simpl.
  destruct (decide (lang = CONFIG.defaultLanguage)); [contradiction|].
  now simp loadNavigation.
Qed.

Lemma loadNavigation_try_failed (env : Env) (lang : string) (st : State) :
  nav (cache st) !! lang = None ->
  navFetchFailed (fetch env (navPath lang)) = true ->
  loadNavigation_try env lang st = Thrown (emit (Fetch (navPath lang)) st).
Proof.
  intros Hmiss Hfail. unfold loadNavigation_try. rewrite Hmiss.
  destruct (fetch env (navPath lang)) as [|[|] text [data|]];
    simpl in Hfail; try reflexivity; discriminate Hfail.
Qed.

Lemma loadNavigation_try_available (env : Env) (lang : string) (st : State)
      (data : NavData) :
  navAvailable env lang st = Some data ->
  exists st', loadNavigation_try env lang st = Normal st'
              /\ navData st' = data
              /\ dom st' = dom (renderNavigation data st)
              /\ nav (cache st') !! lang = Some data
              /\ fallbacks st' = fallbacks st.
Proof.
  unfold navAvailable, loadNavigation_try.
  destruct (nav (cache st) !! lang) as [cached|] eqn:Hc.
  - intros [= ->]. eexists. split; [reflexivity|]. simpl. auto.
  - destruct (fetch env (navPath lang)) as [|[|] text [d|]]; try discriminate.
    intros [= ->]. eexists. split; [reflexivity|]. simpl.
    rewrite lookup_insert_eq. repeat split.
    unfold fallbacks. simpl. rewrite List.filter_app. simpl.
    rewrite length_app. simpl. lia.
Qed.

Lemma fallbacks_emit (e : Event) (st : State) :
  fallbacks (emit e st) = fallbacks st + (if isFallback e then 1 else 0).
Proof.
  unfold fallbacks, emit. simpl. rewrite List.filter_app, length_app. simpl.
  destruct (isFallback e); reflexivity.
Qed.

(** A call for the default language never starts a fallback. *)
Lemma loadNavigation_default_fallbacks (env : Env) (st : State) :
  fallbacks (loadNavigation env CONFIG.defaultLanguage st) = fallbacks st.
Proof.
  destruct (loadNavigation_try env CONFIG.defaultLanguage st) as [st'|st'] eqn:Htry.
  - rewrite (loadNavigation_normal _ _ _ _ Htry).
    unfold loadNavigation_try in Htry.
    destruct (nav (cache st) !! CONFIG.defaultLanguage).
    + injection Htry as <-. reflexivity.
    + destruct (fetch env (navPath CONFIG.defaultLanguage)) as [|[|] text [d|]];
        try discriminate Htry.
      injection Htry as <-. unfold fallbacks. simpl.
      rewrite List.filter_app, length_app. simpl. lia.
  - rewrite (loadNavigation_thrown_default _ _ _ Htry).
    unfold console_error. rewrite fallbacks_emit. simpl.
    unfold loadNavigation_try in Htry.
    destruct (nav (cache st) !! CONFIG.defaultLanguage); [discriminate Htry|].
    destruct (fetch env (navPath CONFIG.defaultLanguage)) as [|[|] text [d|]];
      try discriminate Htry; injection Htry as <-;
      rewrite fallbacks_emit; simpl; lia.
Qed.

Lemma navAvailable_None (env : Env) (lang : string) (st : State) :
  navAvailable env lang st = None ->
  nav (cache st) !! lang = None
  /\ navFetchFailed (fetch env (navPath lang)) = true.
Proof.
  unfold navAvailable.
  destruct (nav (cache st) !! lang); [discriminate|].
  destruct (fetch env (navPath lang)) as [|[|] text [d|]];
    try discriminate; auto.
Qed.

(** C4. When the navigation fetch for a language [L] fails: if [L] is not the
    default language, exactly one fallback is started, and it is a load of the
    default language's navigation, which is rendered when it is available; if
    that load fails as well, the error is logged and nothing more is tried.
    If [L] is the default language, no fallback is started at all. *)
Theorem loadNavigation_fallback (env : Env) (L : string) (st : State) :
  nav (cache st) !! L = None ->
  navFetchFailed (fetch env (navPath L)) = true ->
  let si := CONFIG.defaultLanguage in
  let failed := console_error ("Failed to load navigation for " +:+ L +:+ ":")
                              (emit (Fetch (navPath L)) st) in
  let warned := console_warn ("Falling back to " +:+ si) failed in
  let st' := loadNavigation env L st in
  (L <> si ->
     st' = loadNavigation env si warned
     /\ fallbacks st' = S (fallbacks st)
     /\ (forall data, navAvailable env si st = Some data ->
           navData st' = data /\ dom st' = dom (renderNavigation data st))
     /\ (navAvailable env si st = None ->
           st' = console_error ("Failed to load navigation for " +:+ si +:+ ":")
                               (emit (Fetch (navPath si)) warned)
           /\ fetched st' = (fetched st ++ [navPath L; navPath si])%list))
  /\ (L = si -> st' = failed /\ fallbacks st' = fallbacks st).
Proof.
  intros Hmiss Hfail. cbn zeta.
  pose proof (loadNavigation_try_failed env L st Hmiss Hfail) as Htry.
  split.
  - intros Hne.
    rewrite (loadNavigation_thrown_other env L st _ Hne Htry).
    split; [reflexivity|]. split; [|split].
    + rewrite loadNavigation_default_fallbacks.
      unfold console_warn, console_error. rewrite !fallbacks_emit. simpl. lia.
    + intros data Hav.
      match goal with |- context [loadNavigation env _ ?s] => set (warned := s) end.
      assert (Hav' : navAvailable env CONFIG.defaultLanguage warned = Some data)
        by exact Hav.
      destruct (loadNavigation_try_available env _ warned data Hav')
        as (st2 & Hnormal & Hdata & Hdom & _).
      rewrite (loadNavigation_normal _ _ _ _ Hnormal). auto.
    + intros Hnone.
      destruct (navAvailable_None env _ st Hnone) as [Hmiss2 Hfail2].
      match goal with |- context [loadNavigation env _ ?s] => set (warned := s) end.
      assert (Htry2 : loadNavigation_try env CONFIG.defaultLanguage warned
                      = Thrown (emit (Fetch (navPath CONFIG.defaultLanguage)) warned))
        by (apply loadNavigation_try_failed; assumption).
      rewrite (loadNavigation_thrown_default _ _ _ Htry2).
      split; [reflexivity|].
      unfold console_error, warned, console_warn, console_error.
      rewrite !fetched_emit. simpl. rewrite !app_nil_r, <- app_assoc. reflexivity.
  - intros ->.
    rewrite (loadNavigation_thrown_default env st _ Htry).
    split; [reflexivity|].
    unfold console_error. rewrite !fallbacks_emit. simpl. lia.
Qed.

Lemma loadNavigation_fallback_witness :
  let st' := loadNavigation siOnly "en" (initialState None emptyPage) in
  fallbacks st' = 1
  /\ navData st' = siNav
  /\ navItem1 (dom st') = Some [createNavItem (mkNavItem "Home" (Some "home.html") None)].
Proof.
  cbn zeta.
  destruct (loadNavigation_fallback siOnly "en" (initialState None emptyPage)
              eq_refl eq_refl) as [Hother _].
  destruct Hother as (_ & Hcount & Hrender & _); [discriminate|].
  destruct (Hrender siNav eq_refl) as [Hdata Hdom].
  split; [exact Hcount|]. split; [exact Hdata|].
  rewrite Hdom. reflexivity.
Defined.

(** ** Content loading: failure *)

Lemma loadContent_try_failed (env : Env) (pageName : string) (lang : Js.value)
      (st : State) :
  Js.truthy (pages (cache st) !! cacheKeyOf lang pageName) = false ->
  pageFetchFailed env (fileNameOf pageName)
                  (fetch env (pagePath lang (fileNameOf pageName))) = true ->
  loadContent_try env pageName lang st
  = Thrown (emit (Fetch (pagePath lang (fileNameOf pageName))) st).
Proof.
  intros Hmiss Hfail. unfold loadContent_try. rewrite Hmiss.
  destruct (fetch env (pagePath lang (fileNameOf pageName))) as [|[|] [content|] j];
    simpl in Hfail; try reflexivity; try discriminate Hfail.
  destruct (processContent env (fileNameOf pageName) content); simpl in *.
  - discriminate Hfail.
  - reflexivity.
Qed.

(** C9. When a load of a page that is not an external URL fails, with no cache
    entry for its key, the state of the program is as before the call: the
    page cache has no new entry, the current page is unchanged and no history
    entry was pushed.  What changed is the content container, which shows the
    error panel; the failed request and the two error messages are on the
    trace. *)
Theorem loadContent_failure_atomic (env : Env) (P L : Js.value) (st : State) :
  let page := pageOrDefault P in
  let lang := langOrCurrent L st in
  let path := pagePath lang (fileNameOf page) in
  isExternalURL (Some page) = false ->
  Js.truthy (pages (cache st) !! cacheKeyOf lang page) = false ->
  pageFetchFailed env (fileNameOf page) (fetch env path) = true ->
  let st' := loadContent env P L st in
  cache st' = cache st
  /\ pages (cache st') !! cacheKeyOf lang page = pages (cache st) !! cacheKeyOf lang page
  /\ currentPage st' = currentPage st
  /\ history st' = history st
  /\ content (dom st')
     = errorShown ("Failed to load page: " +:+ page) (content (dom st))
  /\ dom st' = match content (dom st) with
               | Some _ => set_content (errorPanel ("Failed to load page: " +:+ page))
                                       (dom st)
               | None => dom st
               end
  /\ currentLanguage st' = currentLanguage st
  /\ navData st' = navData st
  /\ storedLanguage st' = storedLanguage st
  /\ trace st' = (trace st ++ [Fetch path;
                              ConsoleError ("Failed to load content: " +:+ page);
                              ConsoleError ("Failed to load page: " +:+ page)])%list.
Proof.
  cbn zeta. intros Hlocal Hmiss Hfail.
  unfold loadContent. rewrite Hlocal.
  rewrite (loadContent_try_failed env _ _ st Hmiss Hfail).
  unfold showError, console_error, emit, errorShown. simpl.
  destruct (content (dom st)) eqn:Hdiv; simpl; rewrite <- !app_assoc; simpl;
    rewrite ?Hdiv; repeat split; reflexivity.
Qed.

Lemma loadContent_failure_atomic_witness :
  let st := set_currentPage (Some "home.html") (initialState None emptyPage) in
  let st' := loadContent offline (Some "news.html") (Some "en") st in
  cache st' = cache st
  /\ currentPage st' = Some "home.html"
  /\ history st' = []
  /\ content (dom st') = Some (errorPanel "Failed to load page: news.html").
Proof.
  cbn zeta.
  pose proof (loadContent_failure_atomic offline (Some "news.html") (Some "en")
                (set_currentPage (Some "home.html") (initialState None emptyPage))
                eq_refl eq_refl eq_refl) as H.
  cbn zeta in H.
  destruct H as (Hc & _ & Hp & Hh & Hd & _).
  repeat split; assumption.
Defined.

(** ** Content loading: success *)

Lemma loadContent_try_fetched (env : Env) (pageName : string) (lang : Js.value)
      (st : State) (text : string) (j : option NavData) (processed : string) :
  Js.truthy (pages (cache st) !! cacheKeyOf lang pageName) = false ->
  fetch env (pagePath lang (fileNameOf pageName)) = Http true (Some text) j ->
  processContent env (fileNameOf pageName) text = Some processed ->
  loadContent_try env pageName lang st = Normal (pageLoaded pageName lang processed st).
Proof.
  intros Hmiss Hfetch Hproc. unfold loadContent_try.
  rewrite Hmiss, Hfetch. simpl. rewrite Hproc. reflexivity.
Qed.

Lemma fetched_renderContent (html : string) (st : State) :
  fetched (renderContent html st) = fetched st.
Proof.
  unfold renderContent. destruct (content (dom st)); [|reflexivity].
  rewrite fetched_emit. simpl. apply app_nil_r.
Qed.

Lemma renderContent_frame (html : string) (st : State) :
  cache (renderContent html st) = cache st
  /\ history (renderContent html st) = history st
  /\ currentLanguage (renderContent html st) = currentLanguage st
  /\ currentPage (renderContent html st) = currentPage st.
Proof.
  unfold renderContent. destruct (content (dom st)); repeat split; reflexivity.
Qed.

Lemma content_renderContent (html : string) (st : State) :
  content (dom (renderContent html st))
  = match content (dom st) with Some _ => Some html | None => None end.
Proof.
  unfold renderContent. destruct (content (dom st)) eqn:E; simpl; [reflexivity | exact E].
Qed.

Lemma pageLoaded_fields (pageName : string) (lang : Js.value) (processed : string)
      (st : State) :
  let st' := pageLoaded pageName lang processed st in
  fetched st' = (fetched st ++ [pagePath lang (fileNameOf pageName)])%list
  /\ nav (cache st') = nav (cache st)
  /\ pages (cache st') = <[cacheKeyOf lang pageName := processed]> (pages (cache st))
  /\ content (dom st')
     = match content (dom st) with Some _ => Some processed | None => None end
  /\ history st'
     = (history st ++ [mkEntry (Some pageName) lang
                         ("?page=" +:+ pageName +:+ "&lang=" +:+ Js.to_string lang)])%list
  /\ currentPage st' = Some pageName
  /\ currentLanguage st' = currentLanguage st.
Proof.
  cbn zeta. unfold pageLoaded, renderContent, fetched. simpl.
  destruct (content (dom st)) eqn:Hdiv; simpl; rewrite ?omap_app; simpl;
    rewrite ?app_nil_r, ?Hdiv; repeat split; reflexivity.
Qed.

Lemma processContent_converted (env : Env) (fileName text : string)
      (parse : string -> option string) :
  marked env = Some parse -> Js.split_dot_pop fileName = "md" ->
  processContent env fileName text = parse text.
Proof. intros Hm Hext. unfold processContent. rewrite Hext, Hm. reflexivity. Qed.

Lemma processContent_raw (env : Env) (fileName text : string) :
  marked env = None \/ Js.split_dot_pop fileName <> "md" ->
  processContent env fileName text = Some text.
Proof.
  intros [Hm | Hext]; unfold processContent.
  - rewrite Hm. destruct (_ =? _)%string; reflexivity.
  - destruct (String.eqb_spec (Js.split_dot_pop fileName) "md"); [contradiction|].
    reflexivity.
Qed.

Lemma fileNameOf_markdown (pageName : string) :
  let name := Js.replace ".html" "" pageName in
  (name = "contact" \/ name = "about" -> fileNameOf pageName = name +:+ ".md")
  /\ (name <> "contact" -> name <> "about" -> fileNameOf pageName = pageName).
Proof.
  cbn zeta. unfold fileNameOf.
  destruct (Js.includes ["contact"; "about"] (Some (Js.replace ".html" "" pageName)))
    eqn:E.
  - split; [reflexivity|]. apply includes_In in E. simpl in E. intros; intuition congruence.
  - split; [|reflexivity]. intros H.
    assert (Hin : In (Js.replace ".html" "" pageName) ["contact"; "about"])
      by (simpl; intuition congruence).
    apply includes_In in Hin. congruence.
Qed.

(** C3, as the code has it.  A page whose identifier is [about] or [contact]
    once its first [.html] is removed is read from [about.md] / [contact.md];
    every other page from the file of its own name; the file is fetched from
    [pages/{L}/{file}].  The fetched text is put through the markdown converter
    before it is cached and rendered exactly when the file's extension is [md]
    and the converter is there; otherwise it is cached and rendered as it was
    fetched. *)
Theorem loadContent_markdown_pages (env : Env) (P L : Js.value) (st : State)
        (text : string) (j : option NavData) (processed : string) :
  let page := pageOrDefault P in
  let lang := langOrCurrent L st in
  let name := Js.replace ".html" "" page in
  let fileName := fileNameOf page in
  isExternalURL (Some page) = false ->
  Js.truthy (pages (cache st) !! cacheKeyOf lang page) = false ->
  fetch env (pagePath lang fileName) = Http true (Some text) j ->
  processContent env fileName text = Some processed ->
  let st' := loadContent env P L st in
  (name = "about" -> fileName = "about.md")
  /\ (name = "contact" -> fileName = "contact.md")
  /\ (name <> "about" -> name <> "contact" -> fileName = page)
  /\ fetched st' = (fetched st ++ ["pages/" +:+ Js.to_string lang +:+ "/" +:+ fileName])%list
  /\ (name = "about" \/ name = "contact" -> Js.split_dot_pop fileName = "md")
  /\ (forall parse, marked env = Some parse -> Js.split_dot_pop fileName = "md" ->
        parse text = Some processed)
  /\ (marked env = None \/ Js.split_dot_pop fileName <> "md" -> processed = text)
  /\ pages (cache st') !! cacheKeyOf lang page = Some processed
  /\ content (dom st')
     = match content (dom st) with Some _ => Some processed | None => None end.
Proof.
  cbn zeta. intros Hlocal Hmiss Hfetch Hproc.
  destruct (fileNameOf_markdown (pageOrDefault P)) as [Hmd Hother]. cbn zeta in *.
  unfold loadContent. rewrite Hlocal.
  rewrite (loadContent_try_fetched env _ _ st text j processed Hmiss Hfetch Hproc).
  destruct (pageLoaded_fields (pageOrDefault P) (langOrCurrent L st) processed st)
    as (Hf & _ & Hpages & Hcontent & _).
  split; [|split; [|split; [|split; [|split; [|split; [|split; [|split]]]]]]].
  - intros Hn. rewrite Hmd by auto. now rewrite Hn.
  - intros Hn. rewrite Hmd by auto. now rewrite Hn.
  - intros Ha Hc. now apply Hother.
  - exact Hf.
  - intros [Hn | Hn]; rewrite Hmd by auto; rewrite Hn; reflexivity.
  - intros parse Hm Hext.
    rewrite (processContent_converted env _ text parse Hm Hext) in Hproc. exact Hproc.
  - intros Hraw. rewrite (processContent_raw env _ text Hraw) in Hproc.
    now injection Hproc.
  - rewrite Hpages. apply lookup_insert_eq.
  - exact Hcontent.
Qed.

(** First request of [about] in Tamil: [pages/ta/about.md] is fetched, converted,
    cached under [ta-about], rendered, and pushed on the history. *)
Lemma loadContent_markdown_pages_witness :
  let st' := loadContent (serving "About us" (Some paragraph)) (Some "about") (Some "ta")
                         (initialState None emptyPage) in
  fetched st' = ["pages/ta/about.md"]
  /\ pages (cache st') !! "ta-about" = Some "<p>About us</p>"
  /\ content (dom st') = Some "<p>About us</p>".
Proof.
  cbn zeta.
  pose proof (loadContent_markdown_pages (serving "About us" (Some paragraph))
                (Some "about") (Some "ta") (initialState None emptyPage)
                "About us" None "<p>About us</p>"
                eq_refl eq_refl eq_refl eq_refl) as H.
  cbn zeta in H.
  destruct H as (_ & _ & _ & Hf & _ & _ & _ & Hc & Hd).
  split; [exact Hf|]. split; [exact Hc | exact Hd].
Defined.

(** C3 as stated fails in three ways: without the converter [about] is cached
    as its markdown source; a page other than [about] and [contact] whose name
    ends in [.md] is converted; and [about.html] is not fetched under its own
    file name. *)
Lemma loadContent_markdown_counterexample :
  let st := initialState None emptyPage in
  pages (cache (loadContent (serving "# About" None) (Some "about") (Some "si") st))
    !! "si-about" = Some "# About"
  /\ pages (cache (loadContent (serving "# News" (Some paragraph))
                               (Some "news.md") (Some "si") st))
       !! "si-news.md" = Some "<p># News</p>"
  /\ "<p># News</p>" <> "# News"
  /\ fetched (loadContent (serving "About" (Some paragraph))
                          (Some "about.html") (Some "si") st)
     = ["pages/si/about.md"]
  /\ "pages/si/about.md" <> "pages/si/about.html".
Proof.
  cbn zeta. repeat split; try (vm_compute; reflexivity); discriminate.
Qed.

(** ** Loading a page twice *)

Lemma loadContent_try_cached (env : Env) (pageName : string) (lang : Js.value)
      (st : State) :
  Js.truthy (pages (cache st) !! cacheKeyOf lang pageName) = true ->
  loadContent_try env pageName lang st
  = Normal (set_currentPage (Some pageName)
              (updateURL (Some pageName) lang
                 (renderContent
                    (Js.to_string (pages (cache st) !! cacheKeyOf lang pageName)) st))).
Proof. intros Hhit. unfold loadContent_try. rewrite Hhit. reflexivity. Qed.

Lemma trace_renderContent (html : string) (st : State) :
  trace (renderContent html st)
  = (trace st ++ match content (dom st) with Some _ => [ScrollToTop] | None => [] end)%list.
Proof.
  unfold renderContent. destruct (content (dom st)); simpl;
    [reflexivity | now rewrite app_nil_r].
Qed.

(** A load that finds a non-empty cache entry for its key. *)
Lemma loadContent_hit (env : Env) (P L : Js.value) (mid : State) (processed : string) :
  isExternalURL (Some (pageOrDefault P)) = false ->
  pages (cache mid) !! cacheKeyOf (langOrCurrent L mid) (pageOrDefault P) = Some processed ->
  processed <> "" ->
  loadContent env P L mid
  = set_currentPage (Some (pageOrDefault P))
      (updateURL (Some (pageOrDefault P)) (langOrCurrent L mid)
         (renderContent processed mid)).
Proof.
  intros Hlocal Hentry Hne.
  assert (Hhit : Js.truthy (pages (cache mid)
                              !! cacheKeyOf (langOrCurrent L mid) (pageOrDefault P)) = true).
  { rewrite Hentry. simpl.
    destruct (String.eqb_spec processed ""); [contradiction | reflexivity]. }
  unfold loadContent. rewrite Hlocal.
  rewrite (loadContent_try_cached env _ _ mid Hhit). now rewrite Hentry.
Qed.

(** X1. When the first load of a page puts content other than the empty string in
    the cache, a second load of the same page and language is served from that
    entry: nothing is fetched, the cached content is written to the content
    container and the page is scrolled to the top (when the container exists),
    a history entry is pushed and the page is the current page.  The second
    load is the cache-hit path run on the state the first load left; and
    whatever the content container was made to show in between, a load from
    the cache entry shows the cached content again without a fetch. *)
Theorem loadContent_twice_cached (env1 env2 : Env) (P L : Js.value) (st : State)
        (text : string) (j : option NavData) (processed : string) :
  let page := pageOrDefault P in
  let lang := langOrCurrent L st in
  let path := pagePath lang (fileNameOf page) in
  isExternalURL (Some page) = false ->
  Js.truthy (pages (cache st) !! cacheKeyOf lang page) = false ->
  fetch env1 path = Http true (Some text) j ->
  processContent env1 (fileNameOf page) text = Some processed ->
  processed <> "" ->
  let st1 := loadContent env1 P L st in
  let st2 := loadContent env2 P L st1 in
  let rendered (before : option string) :=
    match before with Some _ => Some processed | None => None end in
  let scrolled (before : option string) :=
    match before with Some _ => [ScrollToTop] | None => [] end in
  fetched st1 = (fetched st ++ [path])%list
  /\ pages (cache st1) !! cacheKeyOf lang page = Some processed
  /\ fetched st2 = fetched st1
  /\ cache st2 = cache st1
  /\ content (dom st2) = content (dom st1)
  /\ history st2
     = (history st1 ++ [mkEntry (Some page) lang
                          ("?page=" +:+ page +:+ "&lang=" +:+ Js.to_string lang)])%list
  /\ currentPage st2 = Some page
  /\ st2 = set_currentPage (Some page)
             (updateURL (Some page) lang (renderContent processed st1))
  /\ content (dom st1) = rendered (content (dom st))
  /\ content (dom st2) = rendered (content (dom st))
  /\ trace st2 = (trace st1 ++ scrolled (content (dom st)))%list
  /\ (forall mid,
        pages (cache mid) = pages (cache st1) ->
        currentLanguage mid = currentLanguage st1 ->
        let again := loadContent env2 P L mid in
        fetched again = fetched mid
        /\ content (dom again) = rendered (content (dom mid))
        /\ trace again = (trace mid ++ scrolled (content (dom mid)))%list
        /\ currentPage again = Some page).
Proof.
  cbn zeta. intros Hlocal Hmiss Hfetch Hproc Hne.
  assert (H1 : loadContent env1 P L st
               = pageLoaded (pageOrDefault P) (langOrCurrent L st) processed st).
  { unfold loadContent. rewrite Hlocal.
    now rewrite (loadContent_try_fetched env1 _ _ st text j processed Hmiss Hfetch Hproc). }
  rewrite H1.
  destruct (pageLoaded_fields (pageOrDefault P) (langOrCurrent L st) processed st)
    as (Hf & _ & Hpages & Hcontent & _ & _ & Hlang).
  set (st1 := pageLoaded (pageOrDefault P) (langOrCurrent L st) processed st) in *.
  assert (Hentry : pages (cache st1) !! cacheKeyOf (langOrCurrent L st) (pageOrDefault P)
                   = Some processed)
    by (rewrite Hpages; apply lookup_insert_eq).
  assert (Hagain : forall mid,
             pages (cache mid) = pages (cache st1) ->
             currentLanguage mid = currentLanguage st1 ->
             loadContent env2 P L mid
             = set_currentPage (Some (pageOrDefault P))
                 (updateURL (Some (pageOrDefault P)) (langOrCurrent L st)
                    (renderContent processed mid))).
  { intros mid Hpg Hl.
    assert (Hsame : langOrCurrent L mid = langOrCurrent L st)
      by (unfold langOrCurrent; now rewrite Hl, Hlang).
    rewrite <- Hsame. apply loadContent_hit; [exact Hlocal | | exact Hne].
    rewrite Hsame, Hpg. exact Hentry. }
  pose proof (Hagain st1 eq_refl eq_refl) as H2.
  rewrite H2.
  split; [exact Hf|]. split; [exact Hentry|].
  split; [apply fetched_renderContent|].
  destruct (renderContent_frame processed st1) as (Hc & Hh & _).
  split; [exact Hc|].
  assert (Hshown : content (dom (renderContent processed st1))
                   = match content (dom st) with
                     | Some _ => Some processed
                     | None => None
                     end).
  { rewrite content_renderContent, Hcontent. now destruct (content (dom st)). }
  split; [cbn [dom set_currentPage updateURL set_history]; now rewrite Hshown, Hcontent|].
  split; [cbn [history set_currentPage updateURL set_history]; now rewrite Hh|].
  split; [reflexivity|]. split; [reflexivity|]. split; [exact Hcontent|].
  split; [exact Hshown|].
  split.
  { cbn [trace set_currentPage updateURL set_history].
    rewrite trace_renderContent, Hcontent. now destruct (content (dom st)). }
  intros mid Hpg Hl. rewrite (Hagain mid Hpg Hl).
  split; [apply fetched_renderContent|].
  split; [cbn [dom set_currentPage updateURL set_history]; apply content_renderContent|].
  split; [cbn [trace set_currentPage updateURL set_history]; apply trace_renderContent|].
  reflexivity.
Qed.

Lemma loadContent_twice_cached_witness :
  let env := serving "About us" (Some paragraph) in
  let st1 := loadContent env (Some "about") (Some "ta") (initialState None emptyPage) in
  let st2 := loadContent offline (Some "about") (Some "ta") st1 in
  fetched st2 = ["pages/ta/about.md"]
  /\ content (dom st2) = Some "<p>About us</p>"
  /\ length (history st2) = 2
  /\ trace st2 = (trace st1 ++ [ScrollToTop])%list
  /\ content (dom (loadContent offline (Some "about") (Some "ta")
                               (showError "Failed to switch language" st1)))
     = Some "<p>About us</p>".
Proof.
  cbn zeta.
  pose proof (loadContent_twice_cached (serving "About us" (Some paragraph)) offline
                (Some "about") (Some "ta") (initialState None emptyPage)
                "About us" None "<p>About us</p>"
                eq_refl eq_refl eq_refl eq_refl) as H.
  cbn zeta in H.
  destruct H as (Hf1 & _ & Hf2 & _ & _ & Hh & _ & _ & _ & Hd & Ht & Hmid);
    [discriminate|].
  split; [now rewrite Hf2, Hf1|].
  split; [exact Hd|].
  split; [rewrite Hh; reflexivity|].
  split; [exact Ht|].
  destruct (Hmid (showError "Failed to switch language"
                    (loadContent (serving "About us" (Some paragraph)) (Some "about")
                                 (Some "ta") (initialState None emptyPage)))
                 eq_refl eq_refl) as (_ & Hc & _).
  exact Hc.
Defined.

(** C2, at a page whose file is empty.  The first load succeeds and stores the
    empty string under [si-home.html]; the test [if (cache.pages[cacheKey])]
    of the second load takes the empty string for a missing entry, and the
    file is fetched a second time. *)
Theorem loadContent_twice_empty_page :
  let env := serving "" None in
  let st1 := loadContent env (Some "home.html") (Some "si") (initialState None emptyPage) in
  let st2 := loadContent env (Some "home.html") (Some "si") st1 in
  fetched st1 = ["pages/si/home.html"]
  /\ pages (cache st1) !! "si-home.html" = Some ""
  /\ currentPage st1 = Some "home.html"
  /\ fetched st2 = ["pages/si/home.html"; "pages/si/home.html"].
Proof.
  cbn zeta. repeat split; vm_compute; reflexivity.
Qed.

(** ** Back and forward *)

Lemma loadNavigation_try_selection (env : Env) (lang : string) (st : State) :
  match loadNavigation_try env lang st with
  | Normal st' | Thrown st' => sameSelection st st'
  end.
Proof.
  unfold loadNavigation_try, sameSelection.
  destruct (nav (cache st) !! lang); [split; reflexivity|].
  destruct (fetch env (navPath lang)) as [|[|] text [data|]]; split; reflexivity.
Qed.

Lemma loadNavigation_selection (env : Env) (lang : string) (st : State) :
  sameSelection st (loadNavigation env lang st).
Proof.
  funelim (loadNavigation env lang st).
  - pose proof (loadNavigation_try_selection env lang st) as H.
    rewrite Heq in H. exact H.
  - pose proof (loadNavigation_try_selection env lang st) as H.
    rewrite Heq0 in H. exact H.
  - pose proof (loadNavigation_try_selection env lang st) as Htry.
    rewrite Heq0 in Htry. destruct Htry as [Hl Hp].
    destruct H as [Hl' Hp']. split.
    + rewrite Hl'. exact Hl.
    + rewrite Hp'. exact Hp.
Qed.

Lemma loadContent_currentLanguage (env : Env) (P L : Js.value) (st : State) :
  currentLanguage (loadContent env P L st) = currentLanguage st.
Proof.
  unfold loadContent.
  destruct (isExternalURL (Some (pageOrDefault P))); [reflexivity|].
  unfold loadContent_try.
  destruct (Js.truthy _).
  - simpl. apply renderContent_frame.
  - destruct (fetch env _) as [|[|] [text|] j]; simpl;
      try (unfold showError; simpl; destruct (content (dom st)); reflexivity).
    destruct (processContent env _ text); simpl.
    + unfold renderContent. simpl. destruct (content (dom st)); reflexivity.
    + unfold showError. simpl. destruct (content (dom st)); reflexivity.
Qed.

Lemma loadContent_currentPage (env : Env) (P L : Js.value) (st : State) :
  currentPage (loadContent env P L st) = currentPage st
  \/ currentPage (loadContent env P L st) = Some (pageOrDefault P).
Proof.
  unfold loadContent.
  destruct (isExternalURL (Some (pageOrDefault P))); [left; reflexivity|].
  unfold loadContent_try.
  destruct (Js.truthy _).
  - right. reflexivity.
  - destruct (fetch env _) as [|[|] [text|] j]; simpl;
      try (left; unfold showError; simpl; destruct (content (dom st)); reflexivity).
    destruct (processContent env _ text); simpl.
    + right. reflexivity.
    + left. unfold showError. simpl. destruct (content (dom st)); reflexivity.
Qed.

Lemma or_default (v : Js.value) (d : string) :
  d <> "" ->
  Js.truthy (Js.or v (Some d)) = true
  /\ (Js.truthy v = true -> Js.or v (Some d) = v)
  /\ (Js.truthy v = false -> Js.or v (Some d) = Some d).
Proof.
  intros Hd.
  assert (Htd : Js.truthy (Some d) = true)
    by (simpl; destruct (String.eqb_spec d ""); [contradiction | reflexivity]).
  unfold Js.or. destruct (Js.truthy v) eqn:E.
  - repeat split; [exact E | discriminate].
  - repeat split; [exact Htd | discriminate].
Qed.

Lemma pageOrDefault_truthy (v : Js.value) :
  Js.truthy v = true -> Some (pageOrDefault v) = v.
Proof.
  intros H. unfold pageOrDefault. rewrite H. destruct v; [reflexivity | discriminate].
Qed.

(** [initializeApp] keeps the language and the page it was started with, and
    decorates the language selector for that language. *)
Lemma initializeApp_selection (env : Env) (st : State) :
  Js.truthy (currentPage st) = true ->
  let st' := initializeApp env st in
  currentLanguage st' = currentLanguage st
  /\ currentPage st' = currentPage st
  /\ languageUI (dom st') = currentLanguage st.
Proof.
  intros Hpage. cbn zeta. unfold initializeApp.
  destruct (loadNavigation_selection env (Js.to_string (currentLanguage st)) st)
    as [Hl Hp].
  set (st1 := loadNavigation env (Js.to_string (currentLanguage st)) st) in *.
  rewrite Hl, Hp.
  pose proof (loadContent_currentLanguage env (currentPage st) (currentLanguage st) st1) as Hl2.
  pose proof (loadContent_currentPage env (currentPage st) (currentLanguage st) st1) as Hp2.
  rewrite (pageOrDefault_truthy _ Hpage), Hp in Hp2.
  unfold updateLanguageUI. simpl. rewrite Hl2, Hl.
  repeat split. destruct Hp2; assumption.
Qed.

(** C6, as the code has it.  A popstate event that carries a state restores the
    language and the page from it, each replaced by its default (['si'],
    ['home.html']) when the state lacks it, and runs [initializeApp] again:
    navigation and content are loaded for the restored values.  An event
    without a state is ignored. *)
Theorem onPopState_restores (env : Env) (s : PopState) (st : State) :
  let lang := Js.or (ps_lang s) (Some "si") in
  let page := Js.or (ps_page s) (Some "home.html") in
  let restored := set_currentPage page (set_currentLanguage lang st) in
  let st' := onPopState env (Some s) st in
  st' = initializeApp env restored
  /\ st' = updateLanguageUI
             (loadContent env page lang
                (loadNavigation env (Js.to_string lang) restored))
  /\ currentLanguage st' = lang
  /\ currentPage st' = page
  /\ languageUI (dom st') = lang
  /\ (Js.truthy (ps_lang s) = true -> lang = ps_lang s)
  /\ (Js.truthy (ps_lang s) = false -> lang = Some "si")
  /\ (Js.truthy (ps_page s) = true -> page = ps_page s)
  /\ (Js.truthy (ps_page s) = false -> page = Some "home.html")
  /\ onPopState env None st = st.
Proof.
  cbn zeta.
  assert (Hsi : "si" <> "") by discriminate.
  assert (Hhome : "home.html" <> "") by discriminate.
  destruct (or_default (ps_lang s) "si" Hsi) as (_ & Hl1 & Hl2).
  destruct (or_default (ps_page s) "home.html" Hhome) as (Hpt & Hp1 & Hp2).
  set (restored := set_currentPage (Js.or (ps_page s) (Some "home.html"))
                     (set_currentLanguage (Js.or (ps_lang s) (Some "si")) st)).
  destruct (initializeApp_selection env restored Hpt) as (Hl & Hp & Hui).
  change (onPopState env (Some s) st) with (initializeApp env restored).
  split; [reflexivity|].
  split.
  { unfold initializeApp.
    pose proof (loadNavigation_selection env
                  (Js.to_string (currentLanguage restored)) restored) as [Hl' Hp'].
    rewrite Hl', Hp'. reflexivity. }
  repeat split; auto.
Qed.

(** C6 as stated fails for an event without a state: the language and the page
    stay what they were instead of becoming ['si'] and ['home.html'], and
    nothing is loaded. *)
Lemma onPopState_counterexample :
  let st := set_currentPage (Some "about")
              (set_currentLanguage (Some "en") (initialState (Some "en") emptyPage)) in
  let st' := onPopState siOnly None st in
  currentLanguage st' = Some "en"
  /\ currentPage st' = Some "about"
  /\ trace st' = []
  /\ navData st' = emptyNavData
  /\ Some "en" <> Some "si"
  /\ Some "about" <> Some "home.html".
Proof.
  cbn zeta. repeat split; discriminate.
Qed.

(** ** The two loads write disjoint parts of the state *)

Lemma renderNavigation_parts (data : NavData) (st : State) :
  pagePart (renderNavigation data st) = pagePart st
  /\ restPart (renderNavigation data st) = restPart st
  /\ trace (renderNavigation data st) = trace st.
Proof. repeat split. Qed.

Lemma emit_parts (e : Event) (st : State) :
  navPart (emit e st) = navPart st
  /\ pagePart (emit e st) = pagePart st
  /\ restPart (emit e st) = restPart st.
Proof. repeat split. Qed.

(** The [try] block of [loadNavigation] leaves the page and the rest alone,
    adds events at the end of the trace, and what it does to the navigation
    part is decided by the navigation part it starts from. *)
Lemma loadNavigation_try_parts (env : Env) (lang : string) (st1 st2 : State) :
  navPart st1 = navPart st2 ->
  exists evs,
    match loadNavigation_try env lang st1, loadNavigation_try env lang st2 with
    | Normal a, Normal b | Thrown a, Thrown b =>
        navPart a = navPart b
        /\ pagePart a = pagePart st1 /\ pagePart b = pagePart st2
        /\ restPart a = restPart st1 /\ restPart b = restPart st2
        /\ trace a = (trace st1 ++ evs)%list /\ trace b = (trace st2 ++ evs)%list
    | _, _ => False
    end.
Proof.
  intros Hnav. unfold navPart in Hnav.
  injection Hnav as Hd Hc Hcn Hpn Hn1 Hn2 Hfn.
  unfold loadNavigation_try. rewrite <- Hc.
  destruct (nav (cache st1) !! lang) as [cached|].
  - exists []. unfold navPart, renderNavigation. simpl.
    rewrite Hc, Hcn, Hpn, Hn1, Hn2, Hfn, !app_nil_r. repeat split.
  - destruct (fetch env (navPath lang)) as [|[|] text [data|]];
      exists [Fetch (navPath lang)]; unfold navPart, renderNavigation; simpl;
      rewrite ?Hd, ?Hc, ?Hcn, ?Hpn, ?Hn1, ?Hn2, ?Hfn; repeat split.
Qed.

Lemma loadNavigation_parts (env : Env) (lang : string) (st1 st2 : State) :
  navPart st1 = navPart st2 ->
  exists evs,
    navPart (loadNavigation env lang st1) = navPart (loadNavigation env lang st2)
    /\ pagePart (loadNavigation env lang st1) = pagePart st1
    /\ pagePart (loadNavigation env lang st2) = pagePart st2
    /\ restPart (loadNavigation env lang st1) = restPart st1
    /\ restPart (loadNavigation env lang st2) = restPart st2
    /\ trace (loadNavigation env lang st1) = (trace st1 ++ evs)%list
    /\ trace (loadNavigation env lang st2) = (trace st2 ++ evs)%list.
Proof.
  intros Hnav.
  destruct (loadNavigation_try_parts env lang st1 st2 Hnav) as [evs Htry].
  destruct (loadNavigation_try env lang st1) as [a|a] eqn:E1;
    destruct (loadNavigation_try env lang st2) as [b|b] eqn:E2; try contradiction.
  - rewrite (loadNavigation_normal _ _ _ _ E1), (loadNavigation_normal _ _ _ _ E2).
    exists evs. exact Htry.
  - destruct Htry as (Hn & Hp1 & Hp2 & Hr1 & Hr2 & Ht1 & Ht2).
    destruct (decide (lang = CONFIG.defaultLanguage)) as [-> | Hne].
    + rewrite (loadNavigation_thrown_default _ _ _ E1),
              (loadNavigation_thrown_default _ _ _ E2).
      eexists. repeat split; try assumption.
      * unfold console_error, emit. simpl. rewrite Ht1, <- app_assoc. reflexivity.
      * unfold console_error, emit. simpl. rewrite Ht2, <- app_assoc. reflexivity.
    + rewrite (loadNavigation_thrown_other _ _ _ _ Hne E1),
              (loadNavigation_thrown_other _ _ _ _ Hne E2).
      set (msg := "Failed to load navigation for " +:+ lang +:+ ":").
      set (w := "Falling back to " +:+ CONFIG.defaultLanguage).
      set (a' := console_warn w (console_error msg a)).
      set (b' := console_warn w (console_error msg b)).
      assert (Hn' : navPart a' = navPart b') by exact Hn.
      destruct (loadNavigation_try_parts env CONFIG.defaultLanguage a' b' Hn')
        as [evs2 Htry2].
      destruct (loadNavigation_try env CONFIG.defaultLanguage a') as [c|c] eqn:E3;
        destruct (loadNavigation_try env CONFIG.defaultLanguage b') as [d|d] eqn:E4;
        try contradiction;
        destruct Htry2 as (Hn2 & Hp3 & Hp4 & Hr3 & Hr4 & Ht3 & Ht4).
      * rewrite (loadNavigation_normal _ _ _ _ E3), (loadNavigation_normal _ _ _ _ E4).
        exists (evs ++ [ConsoleError msg; ConsoleWarn w] ++ evs2)%list.
        repeat split; try assumption.
        -- rewrite Hp3. exact Hp1.
        -- rewrite Hp4. exact Hp2.
        -- rewrite Hr3. exact Hr1.
        -- rewrite Hr4. exact Hr2.
        -- rewrite Ht3. unfold a', console_warn, console_error, emit. simpl.
           rewrite Ht1, <- !app_assoc. reflexivity.
        -- rewrite Ht4. unfold b', console_warn, console_error, emit. simpl.
           rewrite Ht2, <- !app_assoc. reflexivity.
      * rewrite (loadNavigation_thrown_default _ _ _ E3),
                (loadNavigation_thrown_default _ _ _ E4).
        exists (evs ++ [ConsoleError msg; ConsoleWarn w] ++ evs2
                    ++ [ConsoleError ("Failed to load navigation for "
                                      +:+ CONFIG.defaultLanguage +:+ ":")])%list.
        repeat split; try assumption.
        -- change (pagePart c = pagePart st1). rewrite Hp3. exact Hp1.
        -- change (pagePart d = pagePart st2). rewrite Hp4. exact Hp2.
        -- change (restPart c = restPart st1). rewrite Hr3. exact Hr1.
        -- change (restPart d = restPart st2). rewrite Hr4. exact Hr2.
        -- unfold console_error at 1, emit. simpl. rewrite Ht3.
           unfold a', console_warn, console_error, emit. simpl.
           rewrite Ht1, <- !app_assoc. reflexivity.
        -- unfold console_error at 1, emit. simpl. rewrite Ht4.
           unfold b', console_warn, console_error, emit. simpl.
           rewrite Ht2, <- !app_assoc. reflexivity.
Qed.

Ltac close_parts :=
  unfold navPart, pagePart, restPart, showError, console_error, renderContent,
         updateURL, emit; simpl;
  repeat split;
  first [reflexivity | symmetry; apply app_nil_r | congruence
        | repeat f_equal; congruence].

Ltac close_parts_with E1 E2 :=
  unfold navPart, pagePart, restPart, showError, console_error, renderContent,
         updateURL, emit; simpl; rewrite ?E1, ?E2; simpl;
  rewrite <- ?app_assoc; simpl;
  repeat split;
  first [reflexivity | symmetry; apply app_nil_r | congruence
        | repeat f_equal; congruence].

(** [loadContent] leaves the navigation and the rest alone, adds events at the
    end of the trace, and what it does to the page part is decided by the page
    part and the language it starts from. *)
Lemma loadContent_parts (env : Env) (P L : Js.value) (st1 st2 : State) :
  pagePart st1 = pagePart st2 ->
  currentLanguage st1 = currentLanguage st2 ->
  exists evs,
    pagePart (loadContent env P L st1) = pagePart (loadContent env P L st2)
    /\ navPart (loadContent env P L st1) = navPart st1
    /\ navPart (loadContent env P L st2) = navPart st2
    /\ restPart (loadContent env P L st1) = restPart st1
    /\ restPart (loadContent env P L st2) = restPart st2
    /\ trace (loadContent env P L st1) = (trace st1 ++ evs)%list
    /\ trace (loadContent env P L st2) = (trace st2 ++ evs)%list.
Proof.
  intros Hp Hl. unfold pagePart in Hp. injection Hp as Hcp Hpg Hct Hh.
  unfold loadContent, langOrCurrent. rewrite <- Hl.
  set (lang := Js.or L (currentLanguage st1)).
  set (page := pageOrDefault P).
  destruct (isExternalURL (Some page)).
  { eexists. close_parts. }
  unfold loadContent_try. rewrite <- Hpg.
  destruct (content (dom st1)) as [old|] eqn:E1; symmetry in Hct.
  - destruct (Js.truthy (pages (cache st1) !! cacheKeyOf lang page)).
    { eexists. close_parts_with E1 Hct. }
    destruct (fetch env (pagePath lang (fileNameOf page))) as [|[|] [text|] j];
      try (eexists; close_parts_with E1 Hct).
    destruct (processContent env (fileNameOf page) text); eexists; close_parts_with E1 Hct.
  - destruct (Js.truthy (pages (cache st1) !! cacheKeyOf lang page)).
    { eexists. close_parts_with E1 Hct. }
    destruct (fetch env (pagePath lang (fileNameOf page))) as [|[|] [text|] j];
      try (eexists; close_parts_with E1 Hct).
    destruct (processContent env (fileNameOf page) text); eexists; close_parts_with E1 Hct.
Qed.

(** X2. Navigation loading, fallback included, never changes the current page,
    the page cache, the content container or the history; content loading never
    changes the navigation document, its cache or the elements that show the
    navigation; and neither changes the active language, the stored
    preference, the mobile menu or the language selector.  Both only add to
    the end of the trace. *)
Theorem loads_frame (env : Env) (P L : Js.value) (lang : string) (st : State) :
  pagePart (loadNavigation env lang st) = pagePart st
  /\ restPart (loadNavigation env lang st) = restPart st
  /\ navPart (loadContent env P L st) = navPart st
  /\ restPart (loadContent env P L st) = restPart st
  /\ (exists evs, trace (loadNavigation env lang st) = (trace st ++ evs)%list)
  /\ (exists evs, trace (loadContent env P L st) = (trace st ++ evs)%list).
Proof.
  destruct (loadNavigation_parts env lang st st eq_refl)
    as (evN & _ & HpN & _ & HrN & _ & HtN & _).
  destruct (loadContent_parts env P L st st eq_refl eq_refl)
    as (evC & _ & HnC & _ & HrC & _ & HtC & _).
  repeat split; try assumption; eauto.
Qed.

(** X3. The two loads that [setLanguage] starts together commute: run in either
    order from the same state they end in states that agree on every variable
    of the script, on both caches, on the document and on the history; the
    traces hold the same events, in a different order. *)
Theorem loads_commute (env : Env) (P L : Js.value) (lang : string) (st : State) :
  let a := loadContent env P L (loadNavigation env lang st) in
  let b := loadNavigation env lang (loadContent env P L st) in
  navPart a = navPart b
  /\ pagePart a = pagePart b
  /\ restPart a = restPart b
  /\ Permutation (trace a) (trace b).
Proof.
  cbn zeta.
  destruct (loadContent_parts env P L st st eq_refl eq_refl)
    as (_ & _ & HnC & _ & HrC & _ & _ & _).
  destruct (loadNavigation_parts env lang st st eq_refl)
    as (_ & _ & HpN & _ & HrN & _ & _ & _).
  assert (HlN : currentLanguage st = currentLanguage (loadNavigation env lang st))
    by (unfold restPart in HrN; now injection HrN).
  destruct (loadContent_parts env P L st (loadNavigation env lang st)
              (eq_sym HpN) HlN)
    as (evC & HpC & _ & HnC2 & _ & HrC2 & HtC1 & HtC2).
  destruct (loadNavigation_parts env lang st (loadContent env P L st) (eq_sym HnC))
    as (evN & HnN & _ & HpN2 & _ & HrN2 & HtN1 & HtN2).
  repeat split.
  - rewrite HnC2. exact HnN.
  - rewrite HpN2. symmetry. exact HpC.
  - rewrite HrC2, HrN2, HrN, HrC. reflexivity.
  - rewrite HtC2, HtN1, HtN2, HtC1, <- !app_assoc.
    apply Permutation_app_head. apply Permutation_app_comm.
Qed.

(** ** What a load of a page does to the history *)

Lemma pageAvailable_pages (env : Env) (pageName : string) (lang : Js.value)
      (st1 st2 : State) :
  pages (cache st1) = pages (cache st2) ->
  pageAvailable env pageName lang st1 = pageAvailable env pageName lang st2.
Proof. intros H. unfold pageAvailable. now rewrite H. Qed.

Lemma loadContent_available (env : Env) (P L : Js.value) (st : State) (html : string) :
  let page := pageOrDefault P in
  let lang := langOrCurrent L st in
  isExternalURL (Some page) = false ->
  pageAvailable env page lang st = Some html ->
  let st' := loadContent env P L st in
  history st' = (history st ++ [entryOf (Some page) lang])%list
  /\ currentPage st' = Some page
  /\ content (dom st')
     = match content (dom st) with Some _ => Some html | None => None end
  /\ pages (cache st') !! cacheKeyOf lang page = Some html.
Proof.
  cbn zeta. intros Hlocal Hav. unfold pageAvailable in Hav.
  unfold loadContent. rewrite Hlocal.
  destruct (Js.truthy (pages (cache st)
                         !! cacheKeyOf (langOrCurrent L st) (pageOrDefault P))) eqn:Hhit.
  - rewrite (loadContent_try_cached env _ _ st Hhit). rewrite Hav. simpl.
    destruct (renderContent_frame html st) as (Hc & Hh & _).
    rewrite Hh, Hc, content_renderContent. repeat split. exact Hav.
  - destruct (fetch env (pagePath (langOrCurrent L st) (fileNameOf (pageOrDefault P))))
      as [|[|] [text|] j] eqn:Hfetch; try discriminate Hav.
    rewrite (loadContent_try_fetched env _ _ st text j html Hhit Hfetch Hav).
    destruct (pageLoaded_fields (pageOrDefault P) (langOrCurrent L st) html st)
      as (_ & _ & Hpages & Hcontent & Hhist & Hpage & _).
    repeat split; try assumption.
    rewrite Hpages. apply lookup_insert_eq.
Qed.

Lemma loadContent_unavailable (env : Env) (P L : Js.value) (st : State) :
  let page := pageOrDefault P in
  let lang := langOrCurrent L st in
  isExternalURL (Some page) = false ->
  pageAvailable env page lang st = None ->
  let st' := loadContent env P L st in
  history st' = history st
  /\ currentPage st' = currentPage st
  /\ cache st' = cache st
  /\ content (dom st')
     = errorShown ("Failed to load page: " +:+ page) (content (dom st)).
Proof.
  cbn zeta. intros Hlocal Hav. unfold pageAvailable in Hav.
  destruct (Js.truthy (pages (cache st)
                         !! cacheKeyOf (langOrCurrent L st) (pageOrDefault P))) eqn:Hhit.
  { destruct (pages (cache st) !! cacheKeyOf (langOrCurrent L st) (pageOrDefault P));
      discriminate. }
  assert (Hfail : pageFetchFailed env (fileNameOf (pageOrDefault P))
                    (fetch env (pagePath (langOrCurrent L st)
                                         (fileNameOf (pageOrDefault P)))) = true).
  { destruct (fetch env _) as [|[|] [text|] j]; simpl; try reflexivity.
    rewrite Hav. reflexivity. }
  unfold loadContent. rewrite Hlocal.
  rewrite (loadContent_try_failed env _ _ st Hhit Hfail).
  unfold showError, console_error, emit, errorShown. simpl.
  destruct (content (dom st)) eqn:Hdiv; simpl; rewrite ?Hdiv; repeat split.
Qed.

(** X4. A load of a page that is not an external URL pushes exactly one history
    entry, [{page, lang}] with the URL [?page=..&lang=..], when it gets content
    for the page, from the cache or from the network, and it then makes the
    page the current page; when it gets none it pushes nothing and the current
    page stays.  Nothing is compared with the entry before: loading the
    current page again pushes the same entry again. *)
Theorem loadContent_history (env : Env) (P L : Js.value) (st : State) :
  let page := pageOrDefault P in
  let lang := langOrCurrent L st in
  isExternalURL (Some page) = false ->
  let st' := loadContent env P L st in
  (forall html, pageAvailable env page lang st = Some html ->
     history st' = (history st
                    ++ [mkEntry (Some page) lang
                          ("?page=" +:+ page +:+ "&lang=" +:+ Js.to_string lang)])%list
     /\ currentPage st' = Some page)
  /\ (pageAvailable env page lang st = None ->
        history st' = history st /\ currentPage st' = currentPage st).
Proof.
  cbn zeta. intros Hlocal. split.
  - intros html Hav.
    destruct (loadContent_available env P L st html Hlocal Hav) as (Hh & Hp & _).
    split; assumption.
  - intros Hav.
    destruct (loadContent_unavailable env P L st Hlocal Hav) as (Hh & Hp & _).
    split; assumption.
Qed.

Lemma loadContent_history_witness :
  let st := initialState None emptyPage in
  let st1 := loadContent (serving "<h1>Home</h1>" None) (Some "home.html") (Some "si") st in
  let st2 := loadContent (serving "<h1>Home</h1>" None) (Some "home.html") (Some "si") st1 in
  history st2 = [mkEntry (Some "home.html") (Some "si") "?page=home.html&lang=si";
                 mkEntry (Some "home.html") (Some "si") "?page=home.html&lang=si"].
Proof.
  cbn zeta.
  set (env := serving "<h1>Home</h1>" None).
  set (st := initialState None emptyPage).
  destruct (loadContent_history env (Some "home.html") (Some "si") st eq_refl)
    as [H1 _].
  destruct (H1 "<h1>Home</h1>" eq_refl) as [Hh1 _].
  set (st1 := loadContent env (Some "home.html") (Some "si") st) in *.
  destruct (loadContent_history env (Some "home.html") (Some "si") st1 eq_refl)
    as [H2 _].
  destruct (H2 "<h1>Home</h1>" eq_refl) as [Hh2 _].
  rewrite Hh2, Hh1. reflexivity.
Defined.

(** ** A switch of language that goes through *)

(** The state in which the two loads of [setLanguage] start. *)
Lemma setLanguage_steps (env : Env) (N : Js.value) (st : State) :
  supported N -> N <> currentLanguage st ->
  let s2 := set_storedLanguage (Some (Js.to_string N))
              (set_currentLanguage N (showLoading st)) in
  let s3 := loadNavigation env (Js.to_string N) s2 in
  let s4 := loadContent env (currentPage s3) N s3 in
  setLanguage env N st
  = hideLoading (updateURL (currentPage s4) N (updateLanguageUI s4))
  /\ restPart s4 = (N, N, menuItems (dom st), languageUI (dom st))
  /\ pagePart s3 = pagePart st
  /\ (exists evs, trace s4 = (trace st ++ [ConsoleLog "Loading..."] ++ evs)%list).
Proof.
  intros Hsup Hne. cbn zeta.
  split.
  - unfold setLanguage. rewrite (validateLanguage_supported _ Hsup).
    rewrite (supported_truthy _ Hsup). simpl.
    rewrite bool_decide_eq_false_2 by exact Hne. reflexivity.
  - set (s2 := set_storedLanguage (Some (Js.to_string N))
                 (set_currentLanguage N (showLoading st))).
    destruct (loadNavigation_parts env (Js.to_string N) s2 s2 eq_refl)
      as (evN & _ & HpN & _ & HrN & _ & HtN & _).
    set (s3 := loadNavigation env (Js.to_string N) s2) in *.
    destruct (loadContent_parts env (currentPage s3) N s3 s3 eq_refl eq_refl)
      as (evC & _ & _ & _ & HrC & _ & HtC & _).
    split; [|split].
    + rewrite HrC, HrN. unfold restPart, s2. simpl.
      destruct Hsup as (l & -> & _). reflexivity.
    + exact HpN.
    + exists (evN ++ evC)%list. rewrite HtC, HtN. unfold s2, showLoading, console_log, emit.
      simpl. rewrite <- !app_assoc. reflexivity.
Qed.

(** X5. A switch to a supported language other than the active one always goes
    through, whatever the network does: the new language is the active one, it
    is the stored preference and the one the language selector shows; the
    loading indicator is shown first and hidden last; and the last history
    entry carries the current page and the new language. *)
Theorem setLanguage_switches (env : Env) (N : Js.value) (st : State) :
  supported N -> N <> currentLanguage st ->
  let st' := setLanguage env N st in
  currentLanguage st' = N
  /\ storedLanguage st' = N
  /\ languageUI (dom st') = N
  /\ (exists evs, trace st' = (trace st ++ [ConsoleLog "Loading..."] ++ evs
                                      ++ [ConsoleLog "Loading complete"])%list)
  /\ (exists older,
        history st' = (older ++ [mkEntry (currentPage st') N
                                   ("?page=" +:+ Js.to_string (currentPage st')
                                    +:+ "&lang=" +:+ Js.to_string N)])%list).
Proof.
  intros Hsup Hne. cbn zeta.
  destruct (setLanguage_steps env N st Hsup Hne) as (Heq & Hrest & _ & [evs Htr]).
  cbn zeta in *. rewrite Heq.
  match type of Hrest with restPart ?s = _ => set (s4 := s) in * end.
  unfold restPart in Hrest. injection Hrest as Hl Hs _ _.
  unfold hideLoading, console_log, emit, updateURL, updateLanguageUI. simpl.
  rewrite Hl, Hs. repeat split.
  - exists evs. rewrite Htr, <- !app_assoc. reflexivity.
  - exists (history s4). reflexivity.
Qed.

Lemma setLanguage_switches_witness :
  let st := initializeFromURL None None (initialState (Some "si") emptyPage) in
  let st' := setLanguage offline (Some "ta") st in
  currentLanguage st' = Some "ta"
  /\ storedLanguage st' = Some "ta"
  /\ languageUI (dom st') = Some "ta".
Proof.
  cbn zeta.
  assert (Hsup : supported (Some "ta")).
  { exists "ta". split; [reflexivity | simpl; auto]. }
  assert (Hne : Some "ta" <> currentLanguage
                  (initializeFromURL None None (initialState (Some "si") emptyPage))).
  { vm_compute. discriminate. }
  destruct (setLanguage_switches offline (Some "ta") _ Hsup Hne) as (H1 & H2 & H3 & _).
  split; [exact H1|]. split; [exact H2 | exact H3].
Defined.

(** X6. A switch of language whose content load succeeds pushes the same
    history entry twice, once by [loadContent] and once by [setLanguage]
    itself; when the content load fails, one entry is pushed all the same,
    for the page that was current and the new language. *)
Theorem setLanguage_history (env : Env) (N : Js.value) (st : State) :
  supported N -> N <> currentLanguage st ->
  let page := pageOrDefault (currentPage st) in
  Js.truthy (currentPage st) = true ->
  isExternalURL (Some page) = false ->
  let st' := setLanguage env N st in
  (forall html, pageAvailable env page N st = Some html ->
     history st' = (history st ++ [entryOf (Some page) N; entryOf (Some page) N])%list)
  /\ (pageAvailable env page N st = None ->
        history st' = (history st ++ [entryOf (Some page) N])%list).
Proof.
  intros Hsup Hne. cbn zeta. intros Hpage Hlocal.
  destruct (setLanguage_steps env N st Hsup Hne) as (Heq & _ & Hpp & _).
  cbn zeta in *. rewrite Heq.
  match type of Hpp with pagePart ?s = _ => set (s3 := s) in * end.
  unfold pagePart in Hpp. injection Hpp as Hcp Hpg _ Hh.
  assert (Hlang : langOrCurrent N s3 = N).
  { unfold langOrCurrent, Js.or. now rewrite (supported_truthy _ Hsup). }
  rewrite Hcp.
  split.
  - intros html Hav.
    rewrite <- (pageAvailable_pages env _ N s3 st Hpg) in Hav.
    rewrite <- Hlang in Hav.
    destruct (loadContent_available env (currentPage st) N s3 html Hlocal Hav)
      as (Hh' & Hp' & _).
    unfold hideLoading, console_log, emit, updateURL, updateLanguageUI. simpl.
    rewrite Hh', Hp', Hh, Hlang, <- app_assoc. reflexivity.
  - intros Hav.
    rewrite <- (pageAvailable_pages env _ N s3 st Hpg) in Hav.
    rewrite <- Hlang in Hav.
    destruct (loadContent_unavailable env (currentPage st) N s3 Hlocal Hav)
      as (Hh' & Hp' & _).
    unfold hideLoading, console_log, emit, updateURL, updateLanguageUI. simpl.
    rewrite Hh', Hp', Hh, Hcp, (pageOrDefault_truthy _ Hpage). reflexivity.
Qed.

Lemma setLanguage_history_witness :
  let st := initializeFromURL None None (initialState (Some "si") emptyPage) in
  length (history (setLanguage (serving "<p>x</p>" None) (Some "en") st)) = 2
  /\ length (history (setLanguage offline (Some "en") st)) = 1.
Proof.
  cbn zeta.
  set (st := initializeFromURL None None (initialState (Some "si") emptyPage)).
  assert (Hsup : supported (Some "en")).
  { exists "en". split; [reflexivity | simpl; auto]. }
  assert (Hne : Some "en" <> currentLanguage st) by (vm_compute; discriminate).
  split.
  - destruct (setLanguage_history (serving "<p>x</p>" None) (Some "en") st
                Hsup Hne eq_refl eq_refl) as [H _].
    rewrite (H "<p>x</p>" eq_refl). reflexivity.
  - destruct (setLanguage_history offline (Some "en") st
                Hsup Hne eq_refl eq_refl) as [_ H].
    rewrite (H eq_refl). reflexivity.
Defined.

(** ** Going back pushes *)

Lemma or_same (v : Js.value) : Js.or v v = v.
Proof. unfold Js.or. destruct (Js.truthy v); reflexivity. Qed.

(** X7. The script never replaces a history entry: a back or forward step to an
    entry with a state, when the page of that entry loads, pushes one more
    entry, for the restored page and language, on top of the history. *)
Theorem onPopState_pushes (env : Env) (s : PopState) (st : State) (html : string) :
  let lang := Js.or (ps_lang s) (Some CONFIG.defaultLanguage) in
  let page := pageOrDefault (Js.or (ps_page s) (Some CONFIG.defaultPage)) in
  isExternalURL (Some page) = false ->
  pageAvailable env page lang st = Some html ->
  history (onPopState env (Some s) st) = (history st ++ [entryOf (Some page) lang])%list.
Proof.
  cbn zeta. intros Hlocal Hav.
  set (lang := Js.or (ps_lang s) (Some CONFIG.defaultLanguage)) in *.
  set (pg := Js.or (ps_page s) (Some CONFIG.defaultPage)) in *.
  set (restored := set_currentPage pg (set_currentLanguage lang st)).
  change (onPopState env (Some s) st) with (initializeApp env restored).
  unfold initializeApp.
  destruct (loadNavigation_parts env (Js.to_string (currentLanguage restored))
              restored restored eq_refl)
    as (evN & _ & HpN & _ & HrN & _ & _ & _).
  set (s3 := loadNavigation env (Js.to_string (currentLanguage restored)) restored) in *.
  unfold pagePart in HpN. injection HpN as Hcp Hpg _ Hh.
  unfold restPart in HrN. injection HrN as Hl _ _ _.
  simpl in Hcp, Hpg, Hh, Hl.
  assert (Hlang : langOrCurrent (currentLanguage s3) s3 = lang).
  { unfold langOrCurrent. rewrite Hl. apply or_same. }
  rewrite <- (pageAvailable_pages env _ lang s3 st Hpg) in Hav.
  rewrite <- Hlang in Hav. rewrite <- Hcp in Hav, Hlocal.
  destruct (loadContent_available env (currentPage s3) (currentLanguage s3) s3 html
              Hlocal Hav) as (Hh' & _).
  unfold updateLanguageUI. simpl. rewrite Hh', Hh, Hlang, Hcp. reflexivity.
Qed.

Lemma onPopState_pushes_witness :
  let env := serving "<h1>Home</h1>" None in
  let st := loadContent env (Some "home.html") (Some "si") (initialState None emptyPage) in
  length (history st) = 1
  /\ length (history (onPopState env (Some (mkPopState (Some "home.html") (Some "si"))) st))
     = 2.
Proof.
  cbn zeta. split; [reflexivity|].
  rewrite (onPopState_pushes (serving "<h1>Home</h1>" None)
             (mkPopState (Some "home.html") (Some "si"))
             (loadContent (serving "<h1>Home</h1>" None) (Some "home.html") (Some "si")
                          (initialState None emptyPage))
             "<h1>Home</h1>" eq_refl eq_refl).
  reflexivity.
Defined.

(** ** The navigation cache *)

Lemma renderNavigation_idem_dom (data : NavData) (st : State) :
  dom (renderNavigation data (renderNavigation data st)) = dom (renderNavigation data st).
Proof.
  unfold renderNavigation. simpl.
  destruct (dom st) as [cn pn n1 n2 fn ct mi lu]. simpl.
  f_equal.
  - destruct cn; simpl; [|reflexivity]. destruct (Js.truthy (nd_name data)) eqn:E; simpl;
      rewrite ?E; reflexivity.
  - destruct pn; simpl; [|reflexivity]. destruct (Js.truthy (nd_payment data)) eqn:E; simpl;
      rewrite ?E; reflexivity.
  - destruct n1, (nd_nav data); reflexivity.
  - destruct n2, (nd_nav data); reflexivity.
  - destruct fn, (nd_nav data); reflexivity.
Qed.

(** X8. Navigation is fetched at most once per language that loads: after a
    load of [L] that found its document, in the cache or on the network, the
    document is cached under [L], and a second load of [L] fetches nothing
    whatever the network does, and leaves the navigation document, the caches
    and the page as the first load left them. *)
Theorem loadNavigation_twice (env1 env2 : Env) (L : string) (st : State)
        (data : NavData) :
  navAvailable env1 L st = Some data ->
  let st1 := loadNavigation env1 L st in
  let st2 := loadNavigation env2 L st1 in
  nav (cache st1) !! L = Some data
  /\ fetched st2 = fetched st1
  /\ navData st2 = data
  /\ cache st2 = cache st1
  /\ dom st2 = dom st1.
Proof.
  cbn zeta. intros Hav.
  destruct (loadNavigation_try_available env1 L st data Hav)
    as (st1 & Htry & Hdata & Hdom & Hcached & _).
  rewrite (loadNavigation_normal _ _ _ _ Htry).
  assert (Htry2 : loadNavigation_try env2 L st1
                  = Normal (renderNavigation data (set_navData data st1))).
  { unfold loadNavigation_try. rewrite Hcached. reflexivity. }
  rewrite (loadNavigation_normal _ _ _ _ Htry2).
  repeat split; try assumption.
  change (dom (renderNavigation data (set_navData data st1)))
    with (dom (renderNavigation data st1)).
  unfold renderNavigation at 1. simpl. rewrite Hdom.
  change (dom (renderNavigation data (renderNavigation data st))
          = dom (renderNavigation data st)).
  apply renderNavigation_idem_dom.
Qed.

Lemma loadNavigation_twice_witness :
  let st1 := loadNavigation siOnly "si" (initialState None emptyPage) in
  let st2 := loadNavigation offline "si" st1 in
  fetched st2 = ["static/lang/si.json"] /\ navData st2 = siNav.
Proof.
  cbn zeta.
  destruct (loadNavigation_twice siOnly offline "si" (initialState None emptyPage)
              siNav eq_refl) as (_ & Hf & Hd & _).
  split; [rewrite Hf; reflexivity | exact Hd].
Defined.

Lemma loadNavigation_default_cache_other (env : Env) (k : string) (st : State) :
  k <> CONFIG.defaultLanguage ->
  nav (cache (loadNavigation env CONFIG.defaultLanguage st)) !! k = nav (cache st) !! k.
Proof.
  intros Hk.
  destruct (loadNavigation_try env CONFIG.defaultLanguage st) as [st'|st'] eqn:Htry.
  - rewrite (loadNavigation_normal _ _ _ _ Htry).
    unfold loadNavigation_try in Htry.
    destruct (nav (cache st) !! CONFIG.defaultLanguage).
    + injection Htry as <-. reflexivity.
    + destruct (fetch env (navPath CONFIG.defaultLanguage)) as [|[|] text [d|]];
        try discriminate Htry.
      injection Htry as <-. simpl. apply lookup_insert_ne. congruence.
  - rewrite (loadNavigation_thrown_default _ _ _ Htry).
    unfold loadNavigation_try in Htry.
    destruct (nav (cache st) !! CONFIG.defaultLanguage); [discriminate Htry|].
    destruct (fetch env (navPath CONFIG.defaultLanguage)) as [|[|] text [d|]];
      try discriminate Htry; injection Htry as <-; reflexivity.
Qed.

Lemma loadNavigation_miss_fetches (env : Env) (lang : string) (st : State) :
  nav (cache st) !! lang = None ->
  exists rest,
    fetched (loadNavigation env lang st) = (fetched st ++ navPath lang :: rest)%list.
Proof.
  intros Hmiss.
  assert (Hemit : exists st1, (loadNavigation_try env lang st = Normal st1
                               \/ loadNavigation_try env lang st = Thrown st1)
                              /\ fetched st1 = (fetched st ++ [navPath lang])%list).
  { unfold loadNavigation_try. rewrite Hmiss.
    destruct (fetch env (navPath lang)) as [|[|] text [d|]]; eexists;
      (split; [first [left; reflexivity | right; reflexivity]|]);
      unfold fetched; simpl; rewrite omap_app; reflexivity. }
  destruct Hemit as (st1 & [Htry | Htry] & Hf).
  - rewrite (loadNavigation_normal _ _ _ _ Htry). exists []. exact Hf.
  - destruct (decide (lang = CONFIG.defaultLanguage)) as [-> | Hne].
    + rewrite (loadNavigation_thrown_default _ _ _ Htry).
      exists []. unfold console_error. rewrite fetched_emit, Hf. simpl.
      now rewrite app_nil_r.
    + rewrite (loadNavigation_thrown_other _ _ _ _ Hne Htry).
      match goal with |- context [loadNavigation env _ ?s] => set (w := s) end.
      destruct (loadNavigation_parts env CONFIG.defaultLanguage w w eq_refl)
        as (evs & _ & _ & _ & _ & _ & Ht & _).
      exists (omap (fun e => match e with Fetch p => Some p | _ => None end) evs).
      unfold fetched at 1. rewrite Ht, omap_app.
      change (omap _ (trace w)) with (fetched w).
      unfold w, console_warn, console_error. rewrite !fetched_emit, Hf. simpl.
      rewrite !app_nil_r, <- app_assoc. reflexivity.
Qed.

(** X9. A fallback caches nothing under the language that failed: after the
    fetch for a language [L] other than the default failed, the navigation cache
    still has no entry for [L], while the default language's document, when it
    was obtained, is cached under the default language and is the current
    navigation document.  So every later load of [L] fetches [L]'s document
    again. *)
Theorem loadNavigation_fallback_cache (env : Env) (L : string) (st : State) :
  L <> CONFIG.defaultLanguage ->
  nav (cache st) !! L = None ->
  navFetchFailed (fetch env (navPath L)) = true ->
  let st' := loadNavigation env L st in
  nav (cache st') !! L = None
  /\ (forall data, navAvailable env CONFIG.defaultLanguage st = Some data ->
        nav (cache st') !! CONFIG.defaultLanguage = Some data /\ navData st' = data)
  /\ (forall env2, exists rest,
        fetched (loadNavigation env2 L st') = (fetched st' ++ navPath L :: rest)%list).
Proof.
  intros Hne Hmiss Hfail. cbn zeta.
  pose proof (loadNavigation_try_failed env L st Hmiss Hfail) as Htry.
  rewrite (loadNavigation_thrown_other env L st _ Hne Htry).
  match goal with |- context [loadNavigation env _ ?s] => set (w := s) end.
  assert (Hstill : nav (cache (loadNavigation env CONFIG.defaultLanguage w)) !! L = None).
  { rewrite loadNavigation_default_cache_other by exact Hne. exact Hmiss. }
  split; [exact Hstill|]. split.
  - intros data Hav.
    assert (Hav' : navAvailable env CONFIG.defaultLanguage w = Some data) by exact Hav.
    destruct (loadNavigation_try_available env _ w data Hav')
      as (st2 & Hnormal & Hdata & _ & Hcached & _).
    rewrite (loadNavigation_normal _ _ _ _ Hnormal). auto.
  - intros env2. apply loadNavigation_miss_fetches. exact Hstill.
Qed.

Lemma loadNavigation_fallback_cache_witness :
  let st' := loadNavigation siOnly "en" (initialState None emptyPage) in
  nav (cache st') !! "en" = None
  /\ nav (cache st') !! "si" = Some siNav
  /\ fetched (loadNavigation siOnly "en" st')
     = ["static/lang/en.json"; "static/lang/si.json"; "static/lang/en.json"].
Proof.
  cbn zeta.
  assert (Hne : "en" <> CONFIG.defaultLanguage) by discriminate.
  destruct (loadNavigation_fallback_cache siOnly "en" (initialState None emptyPage)
              Hne eq_refl eq_refl) as (Hnone & Hsi & _).
  split; [exact Hnone|]. split; [apply (Hsi siNav eq_refl)|].
  vm_compute. reflexivity.
Defined.

(** ** Rendering the navigation *)

(** X10. Rendering a navigation document replaces what the three containers
    held: each container that exists ends with one list item per navigation
    item, in order, the same in all three, and is emptied when the document
    has no [nav] array; a container that does not exist is skipped.  A name
    or payment label that is missing or empty leaves the text shown before.
    Rendering the same document a second time changes nothing. *)
Theorem renderNavigation_containers (data : NavData) (st : State) :
  let items := match nd_nav data with Some l => l | None => [] end in
  let filled (before : option (list Node)) :=
    match before with
    | Some _ => Some (List.map createNavItem items)
    | None => None
    end in
  let d' := dom (renderNavigation data st) in
  navItem1 d' = filled (navItem1 (dom st))
  /\ navItem2 d' = filled (navItem2 (dom st))
  /\ footerNav d' = filled (footerNav (dom st))
  /\ (forall l, navItem1 d' = Some l -> length l = length items)
  /\ (Js.truthy (nd_name data) = false -> councilName d' = councilName (dom st))
  /\ (Js.truthy (nd_payment data) = false -> PaymentName d' = PaymentName (dom st))
  /\ renderNavigation data (renderNavigation data st) = renderNavigation data st.
Proof.
  cbn zeta.
  assert (Hidem : renderNavigation data (renderNavigation data st)
                  = renderNavigation data st).
  { pose proof (renderNavigation_idem_dom data st) as Hd.
    transitivity (set_dom (dom (renderNavigation data (renderNavigation data st))) st);
      [reflexivity | rewrite Hd; reflexivity]. }
  split; [|split; [|split; [|split; [|split; [|split; [|exact Hidem]]]]]];
    unfold renderNavigation; simpl.
  - unfold fillContainer. destruct (navItem1 (dom st)), (nd_nav data); reflexivity.
  - unfold fillContainer. destruct (navItem2 (dom st)), (nd_nav data); reflexivity.
  - unfold fillContainer. destruct (footerNav (dom st)), (nd_nav data); reflexivity.
  - intros l. unfold fillContainer.
    destruct (navItem1 (dom st)), (nd_nav data); intros [= <-];
      simpl; now rewrite ?length_map.
  - intros Hn. unfold updateTextContent. rewrite Hn.
    destruct (councilName (dom st)); reflexivity.
  - intros Hn. unfold updateTextContent. rewrite Hn.
    destruct (PaymentName (dom st)); reflexivity.
Qed.

(** ** Links *)

Lemma descendants_unfold (n : Node) :
  descendants n = n :: flat_map descendants (childNodes n).
Proof.
  destruct n as [t c a x o children]. simpl. f_equal.
Qed.

Lemma createNavLink_kind (text : string) (link : Js.value) :
  staysOnSite (createNavLink text link) \/ leavesSite (createNavLink text link).
Proof.
  unfold createNavLink. destruct (isExternalURL link) eqn:E.
  - right. exists (Js.to_string link).
    assert (Hl : Some (Js.to_string link) = link).
    { unfold isExternalURL in E. destruct link; [reflexivity | discriminate]. }
    split; [rewrite Hl; exact E | repeat split].
  - left. repeat split. right. exists link. split; [reflexivity | exact E].
Qed.

Lemma createDropdownLink_kind (text : string) (link : Js.value) :
  staysOnSite (createDropdownLink text link) \/ leavesSite (createDropdownLink text link).
Proof.
  unfold createDropdownLink. destruct (isExternalURL link) eqn:E.
  - right. exists (Js.to_string link).
    assert (Hl : Some (Js.to_string link) = link).
    { unfold isExternalURL in E. destruct link; [reflexivity | discriminate]. }
    split; [rewrite Hl; exact E | repeat split].
  - left. repeat split. right. exists link. split; [reflexivity | exact E].
Qed.

Lemma link_descendants (text : string) (link : Js.value) :
  descendants (createNavLink text link) = [createNavLink text link]
  /\ descendants (createDropdownLink text link) = [createDropdownLink text link].
Proof.
  unfold createNavLink, createDropdownLink.
  destruct (isExternalURL link); split; reflexivity.
Qed.

Lemma descendants_menu (items : list NavItem) :
  descendants (createDropdownMenu items)
  = createDropdownMenu items
      :: flat_map (fun i => descendants (createMenuItem i)) items.
Proof.
  rewrite descendants_unfold. unfold createDropdownMenu. cbn [childNodes].
  f_equal. induction items as [|i rest IH]; simpl; [reflexivity | now rewrite IH].
Qed.

Lemma menu_links (P : Node -> Prop) (items : list NavItem) (a : Node) :
  Forall (fun i => forall a, In a (descendants (createMenuItem i)) ->
                             tagName a = "a" -> P a) items ->
  In a (descendants (createDropdownMenu items)) -> tagName a = "a" -> P a.
Proof.
  intros IH Hin Htag. rewrite descendants_menu in Hin.
  destruct Hin as [<- | Hin]; [discriminate Htag|].
  apply in_flat_map in Hin. destruct Hin as (sub & Hsub & Ha).
  rewrite Forall_forall in IH. apply (IH sub); [|exact Ha | exact Htag].
  apply list_elem_of_In. exact Hsub.
Qed.

Lemma createMenuItem_links (item : NavItem) (a : Node) :
  In a (descendants (createMenuItem item)) -> tagName a = "a" ->
  staysOnSite a \/ leavesSite a.
Proof.
  revert a.
  induction item as [text link | text link sub_menu IH] using NavItem_nested_ind;
    intros a Hin Htag; rewrite createMenuItem_unfold, descendants_unfold in Hin;
    cbn [item_sub_menu item_text item_link childNodes flat_map] in Hin;
    destruct Hin as [<- | Hin]; try discriminate Htag;
    apply in_app_or in Hin; destruct Hin as [Hin | Hin].
  - rewrite (proj2 (link_descendants text link)) in Hin.
    destruct Hin as [<- | []]. apply createDropdownLink_kind.
  - destruct Hin.
  - destruct Hin as [<- | []]. left. repeat split. left. reflexivity.
  - rewrite app_nil_r in Hin.
    exact (menu_links (fun a => staysOnSite a \/ leavesSite a) sub_menu a IH Hin Htag).
Qed.

(** X11. Every link of a rendered navigation item, at any depth of its menus,
    is of one of two kinds.  Either it stays on the site: it points to [#],
    opens no tab, and a click on it loads at most a page that is not an
    external URL.  Or it leaves the site: it points to an external URL, has
    [target=_blank] and [rel="noopener noreferrer"], and a click on it only
    closes the mobile menu.  No link to an external URL is rendered without
    this isolation. *)
Theorem createNavItem_links (item : NavItem) (a : Node) :
  In a (descendants (createNavItem item)) -> tagName a = "a" ->
  staysOnSite a \/ leavesSite a.
Proof.
  intros Hin Htag. unfold createNavItem in Hin.
  destruct item as [text link [sub_menu|]];
    cbn [item_sub_menu item_text item_link] in Hin;
    rewrite descendants_unfold in Hin; cbn [childNodes flat_map] in Hin;
    destruct Hin as [<- | Hin]; try discriminate Htag;
    apply in_app_or in Hin; destruct Hin as [Hin | Hin].
  - destruct Hin as [<- | []]. left. repeat split. left. reflexivity.
  - rewrite app_nil_r in Hin.
    apply (menu_links (fun a => staysOnSite a \/ leavesSite a) sub_menu a);
      [|exact Hin | exact Htag].
    apply Forall_forall. intros sub _ b. apply createMenuItem_links.
  - rewrite (proj1 (link_descendants text link)) in Hin.
    destruct Hin as [<- | []]. apply createNavLink_kind.
  - destruct Hin.
Qed.

Lemma createNavItem_links_witness :
  let item := mkNavItem "Links" None
                (Some [mkNavItem "Ministry" (Some "https://example.org") None]) in
  let a := createDropdownLink "Ministry" (Some "https://example.org") in
  In a (descendants (createNavItem item))
  /\ getAttribute "rel" a = Some "noopener noreferrer"
  /\ (staysOnSite a \/ leavesSite a).
Proof.
  cbn zeta.
  assert (Hin : In (createDropdownLink "Ministry" (Some "https://example.org"))
                   (descendants
                      (createNavItem
                         (mkNavItem "Links" None
                            (Some [mkNavItem "Ministry" (Some "https://example.org") None])))))
    by (simpl; auto 10).
  split; [exact Hin|]. split; [reflexivity|].
  exact (createNavItem_links _ _ Hin eq_refl).
Defined.

(** ** The mobile menu and clicks *)

Lemma closeMobileNav_menu (st : State) :
  menuItems (dom (closeMobileNav st))
  = match menuItems (dom st) with Some _ => Some false | None => None end.
Proof.
  unfold closeMobileNav. destruct (menuItems (dom st)) eqn:E; simpl; [reflexivity | exact E].
Qed.

(** X12. Whatever link of the navigation is clicked, the mobile menu is closed
    afterwards, also when the click goes on to load a page.  A click on an
    external link, or on a link without a target, does nothing else: no page is
    loaded and nothing is fetched.  A click on a local link loads its page in
    the language that is active at the time of the click. *)
Theorem click_closes_menu (env : Env) (l : Listener) (st : State) :
  menuItems (dom (click env l st))
  = match menuItems (dom st) with Some _ => Some false | None => None end
  /\ (forall link, l = CloseMobileNav
                   \/ (l = InterceptAndLoad link /\ Js.truthy link = false) ->
        click env l st = closeMobileNav st /\ fetched (click env l st) = fetched st)
  /\ (forall link, l = InterceptAndLoad link -> Js.truthy link = true ->
        click env l st = loadContent env link (currentLanguage st) (closeMobileNav st)).
Proof.
  assert (Hf : fetched (closeMobileNav st) = fetched st).
  { unfold closeMobileNav. destruct (menuItems (dom st)); reflexivity. }
  assert (Hl : currentLanguage (closeMobileNav st) = currentLanguage st).
  { unfold closeMobileNav. destruct (menuItems (dom st)); reflexivity. }
  split; [|split].
  - destruct l as [|link]; simpl; [apply closeMobileNav_menu|].
    destruct (Js.truthy link); [|apply closeMobileNav_menu].
    destruct (loadContent_parts env link (currentLanguage (closeMobileNav st))
                (closeMobileNav st) (closeMobileNav st) eq_refl eq_refl)
      as (evs & _ & _ & _ & Hr & _).
    unfold restPart in Hr. injection Hr as _ _ Hm _.
    rewrite Hm. apply closeMobileNav_menu.
  - intros link [-> | [-> Hno]]; simpl; rewrite ?Hno; auto.
  - intros link -> Hyes. simpl. rewrite Hyes, Hl. reflexivity.
Qed.

(** X13. The mobile menu control: toggling twice gives back the state the menu
    was in; closing is idempotent; and closing after a toggle is the same as
    closing.  When the page has no menu element, all of them do nothing. *)
Theorem mobileNav_algebra (st : State) :
  toggleMobileNav (toggleMobileNav st) = st
  /\ closeMobileNav (closeMobileNav st) = closeMobileNav st
  /\ closeMobileNav (toggleMobileNav st) = closeMobileNav st
  /\ (menuItems (dom st) = None ->
        toggleMobileNav st = st /\ closeMobileNav st = st).
Proof.
  destruct st as [cl cp nd ca sl d h t].
  destruct d as [cn pn n1 n2 fn ct [show|] lu];
    unfold toggleMobileNav, closeMobileNav; simpl.
  - rewrite negb_involutive. repeat split; discriminate.
  - repeat split.
Qed.

(** ** External URLs *)

Lemma prefix_append (p s : string) :
  String.prefix p s = true <-> exists rest, s = p +:+ rest.
Proof.
  revert s. induction p as [|c p IH]; intros s.
  - split; [intros _; exists s; reflexivity | intros _; destruct s; reflexivity].
  - destruct s as [|c' s]; simpl.
    + split; [discriminate | intros [rest H]; discriminate H].
    + destruct (ascii_dec c c') as [-> | Hne].
      * rewrite IH. split; intros [rest H]; exists rest.
        -- now rewrite H.
        -- now injection H.
      * split; [discriminate | intros [rest H]; injection H as H1 _; congruence].
Qed.

(** X14. A value is treated as an external URL exactly when it is a string that
    begins with [http://] or with [https://], in lower case; [null], the empty
    string and every other string, a protocol-relative or upper-case URL
    included, are local page identifiers. *)
Theorem isExternalURL_iff (v : Js.value) :
  (isExternalURL v = true
   <-> exists rest, v = Some ("http://" +:+ rest) \/ v = Some ("https://" +:+ rest))
  /\ isExternalURL None = false
  /\ isExternalURL (Some "") = false
  /\ isExternalURL (Some "//example.org/a") = false
  /\ isExternalURL (Some "HTTPS://example.org") = false.
Proof.
  split; [|repeat split].
  unfold isExternalURL, Js.startsWith. split.
  - intros H. apply andb_true_iff in H. destruct H as [Ht H].
    destruct v as [s|]; [|discriminate Ht]. simpl in H.
    apply orb_true_iff in H. destruct H as [H | H];
      apply prefix_append in H; destruct H as [rest ->]; exists rest; auto.
  - intros [rest [-> | ->]]; destruct rest; reflexivity.
Qed.

(** ** Cache keys *)

(** X15. For supported languages the composite cache key identifies the
    language and the page: two loads that use the same key are loads of the
    same page in the same language, so content cached for one page or
    language is never shown for another.  With other language strings keys can
    collide. *)
Theorem cacheKeyOf_injective (L1 L2 : Js.value) (P1 P2 : string) :
  (supported L1 -> supported L2 ->
   cacheKeyOf L1 P1 = cacheKeyOf L2 P2 -> L1 = L2 /\ P1 = P2)
  /\ cacheKeyOf (Some "a-b") "c" = cacheKeyOf (Some "a") "b-c".
Proof.
  split; [|reflexivity].
  intros (l1 & -> & H1) (l2 & -> & H2) Hkey. unfold cacheKeyOf in Hkey. simpl in *.
  destruct H1 as [<- | [<- | [<- | []]]]; destruct H2 as [<- | [<- | [<- | []]]];
    cbv in Hkey; try discriminate Hkey; injection Hkey as ->; auto.
Qed.

(** ** Start and session *)

Lemma setLanguage_noop_guard (env : Env) (N : Js.value) (st : State) :
  ~ supported N \/ N = currentLanguage st -> setLanguage env N st = st.
Proof.
  intros [Hn | Heq]; unfold setLanguage.
  - rewrite (validateLanguage_unsupported _ Hn). reflexivity.
  - rewrite (bool_decide_eq_true_2 _ Heq), orb_true_r. reflexivity.
Qed.

Lemma pageOrDefault_nonempty (v : Js.value) : Js.truthy (Some (pageOrDefault v)) = true.
Proof.
  unfold pageOrDefault. destruct (Js.truthy v) eqn:E; simpl; [|reflexivity].
  destruct v as [s|]; [exact E | discriminate E].
Qed.

(** What a load of a page can do to the history and to the current page. *)
Lemma loadContent_pushes (env : Env) (P L : Js.value) (st : State) :
  let st' := loadContent env P L st in
  (history st' = history st /\ currentPage st' = currentPage st)
  \/ (history st' = (history st ++ [entryOf (Some (pageOrDefault P))
                                            (langOrCurrent L st)])%list
      /\ currentPage st' = Some (pageOrDefault P)).
Proof.
  cbn zeta.
  destruct (isExternalURL (Some (pageOrDefault P))) eqn:Hext.
  - left. unfold loadContent. rewrite Hext. split; reflexivity.
  - destruct (pageAvailable env (pageOrDefault P) (langOrCurrent L st) st) as [html|] eqn:Hav.
    + right. destruct (loadContent_available env P L st html Hext Hav) as (Hh & Hp & _).
      split; assumption.
    + left. destruct (loadContent_unavailable env P L st Hext Hav) as (Hh & Hp & _).
      split; assumption.
Qed.

Lemma langOrCurrent_supported (L : Js.value) (st : State) :
  Js.truthy L = false \/ supported L ->
  supported (currentLanguage st) ->
  supported (langOrCurrent L st).
Proof.
  intros [Hno | Hsup] Hcur; unfold langOrCurrent, Js.or.
  - now rewrite Hno.
  - now rewrite (supported_truthy _ Hsup).
Qed.

Lemma loadContent_consistent (env : Env) (P L : Js.value) (st : State) :
  Js.truthy L = false \/ supported L ->
  consistent st -> consistent (loadContent env P L st).
Proof.
  intros HL (Hcl & Hsl & Hcp & Hh).
  destruct (loadContent_parts env P L st st eq_refl eq_refl)
    as (_ & _ & _ & _ & Hr & _).
  unfold restPart in Hr. injection Hr as Hl Hs _ _.
  unfold consistent. rewrite Hl, Hs.
  destruct (loadContent_pushes env P L st) as [[Hh' Hp'] | [Hh' Hp']];
    rewrite Hh', Hp'; repeat split; try assumption.
  - apply pageOrDefault_nonempty.
  - apply Forall_app. split; [exact Hh|]. constructor; [|constructor].
    split; [apply langOrCurrent_supported; assumption | apply pageOrDefault_nonempty].
Qed.

Lemma loadNavigation_consistent (env : Env) (lang : string) (st : State) :
  consistent st -> consistent (loadNavigation env lang st).
Proof.
  intros (Hcl & Hsl & Hcp & Hh).
  destruct (loadNavigation_parts env lang st st eq_refl)
    as (_ & _ & Hp & _ & Hr & _).
  unfold restPart in Hr. injection Hr as Hl Hs _ _.
  unfold pagePart in Hp. injection Hp as Hcp' _ _ Hh'.
  unfold consistent. rewrite Hl, Hs, Hcp', Hh'. auto.
Qed.

Lemma initializeApp_consistent (env : Env) (st : State) :
  consistent st -> consistent (initializeApp env st).
Proof.
  intros Hc. unfold initializeApp.
  pose proof (loadNavigation_consistent env (Js.to_string (currentLanguage st)) st Hc) as H1.
  set (s1 := loadNavigation env (Js.to_string (currentLanguage st)) st) in *.
  assert (HL : Js.truthy (currentLanguage s1) = false \/ supported (currentLanguage s1))
    by (right; apply H1).
  exact (loadContent_consistent env (currentPage s1) (currentLanguage s1) s1 HL H1).
Qed.

Lemma setLanguage_consistent (env : Env) (N : Js.value) (st : State) :
  consistent st -> consistent (setLanguage env N st).
Proof.
  intros Hc.
  destruct (supported_dec N) as [Hsup | Hno];
    [|rewrite (setLanguage_noop_guard env N st (or_introl Hno)); exact Hc].
  destruct (decide (N = currentLanguage st)) as [Heq | Hne];
    [rewrite (setLanguage_noop_guard env N st (or_intror Heq)); exact Hc|].
  destruct (setLanguage_steps env N st Hsup Hne) as (Hset & _).
  cbn zeta in Hset. rewrite Hset.
  match goal with
  | |- context [loadContent env ?p N ?s] => set (s3 := s); set (s4 := loadContent env p N s3)
  end.
  assert (H2 : consistent (set_storedLanguage (Some (Js.to_string N))
                              (set_currentLanguage N (showLoading st)))).
  { destruct Hc as (_ & _ & Hcp & Hh). destruct Hsup as (l & -> & Hin).
    repeat split; try assumption; exists l; auto. }
  pose proof (loadNavigation_consistent env (Js.to_string N) _ H2) as H3.
  fold s3 in H3.
  pose proof (loadContent_consistent env (currentPage s3) N s3 (or_intror Hsup) H3) as H4.
  fold s4 in H4. destruct H4 as (Hcl & Hsl & Hcp & Hh).
  repeat split; try assumption.
  simpl. apply Forall_app. split; [exact Hh|]. constructor; [|constructor].
  split; assumption.
Qed.

Lemma perform_consistent (env : Env) (a : Action) (st : State) :
  admissible st a -> consistent st -> consistent (perform env a st).
Proof.
  intros Hadm Hc. destruct a as [N | P L | l | [s|] | | ]; simpl.
  - apply setLanguage_consistent. exact Hc.
  - apply loadContent_consistent; assumption.
  - destruct l as [|link]; simpl.
    + unfold closeMobileNav. destruct (menuItems (dom st)); exact Hc.
    + assert (Hclose : consistent (closeMobileNav st))
        by (unfold closeMobileNav; destruct (menuItems (dom st)); exact Hc).
      destruct (Js.truthy link); [|exact Hclose].
      apply loadContent_consistent; [|exact Hclose].
      right. unfold closeMobileNav. destruct (menuItems (dom st)); apply Hc.
  - destruct Hadm as (e & Hin & Hp & Hl).
    destruct Hc as (Hcl & Hsl & Hcp & Hh).
    pose proof Hh as Hall. rewrite Forall_forall in Hall.
    apply list_elem_of_In in Hin. destruct (Hall e Hin) as [Hel Hep].
    apply initializeApp_consistent.
    assert (Hsi : "si" <> "") by discriminate.
    assert (Hhome : "home.html" <> "") by discriminate.
    destruct (or_default (ps_lang s) "si" Hsi) as (_ & Hl1 & _).
    destruct (or_default (ps_page s) "home.html" Hhome) as (Hpt & _ & _).
    repeat split; simpl; try assumption.
    change (supported (Js.or (ps_lang s) (Some "si"))).
    rewrite Hl1; rewrite Hl; [exact Hel | exact (supported_truthy _ Hel)].
  - exact Hc.
  - unfold toggleMobileNav. destruct (menuItems (dom st)); exact Hc.
  - unfold closeMobileNav. destruct (menuItems (dom st)); exact Hc.
Qed.

Lemma start_consistent (env : Env) (langParam pageParam stored : Js.value) (d : Dom) :
  consistent (initializeApp env
                (initializeFromURL langParam pageParam (initialState stored d))).
Proof.
  apply initializeApp_consistent.
  unfold initializeFromURL, consistent.
  cbn [currentLanguage storedLanguage currentPage history initialState
       set_currentLanguage set_currentPage set_storedLanguage].
  rewrite resolve_firstValid. cbn [Js.to_string].
  assert (Hs : supported (Some (firstValid [langParam; stored] CONFIG.defaultLanguage)))
    by (apply firstValid_supported; simpl; auto).
  assert (Hhome : "home.html" <> "") by discriminate.
  repeat split; try exact Hs.
  - apply (or_default pageParam "home.html" Hhome).
  - constructor.
Qed.

(** X16. Through a whole session the script's state stays consistent.  Start
    the application with any URL parameters, stored preference, document and
    network, and let any sequence of actions follow over any networks:
    language switches, page loads (called without a language or with a
    supported one), clicks on navigation links, back and forward steps to
    entries of the session, menu toggles.  Then the active language is always
    a supported one, so is the stored preference, there is always a current
    page, and every history entry the script pushed carries a supported
    language and a page. *)
Theorem session_consistent (env : Env) (langParam pageParam stored : Js.value) (d : Dom)
        (st : State) :
  reachable (initializeApp env
               (initializeFromURL langParam pageParam (initialState stored d))) st ->
  supported (currentLanguage st)
  /\ supported (storedLanguage st)
  /\ Js.truthy (currentPage st) = true
  /\ Forall goodEntry (history st).
Proof.
  intros Hreach. change (consistent st).
  induction Hreach as [|st env' a Hreach IH Hadm].
  - apply start_consistent.
  - apply perform_consistent; assumption.
Qed.

Lemma session_consistent_witness :
  let start := initializeApp siOnly
                 (initializeFromURL (Some "fr") None (initialState (Some "ta") emptyPage)) in
  let st := perform offline (BackOrForward None)
              (perform (serving "<p>About</p>" None) (DoSetLanguage (Some "en")) start) in
  currentLanguage st = Some "en"
  /\ supported (currentLanguage st)
  /\ supported (storedLanguage st).
Proof.
  cbn zeta.
  set (start := initializeApp siOnly
                  (initializeFromURL (Some "fr") None (initialState (Some "ta") emptyPage))).
  set (st1 := perform (serving "<p>About</p>" None) (DoSetLanguage (Some "en")) start).
  assert (Hreach : reachable start (perform offline (BackOrForward None) st1)).
  { apply reach_step; [|exact I]. apply reach_step; [apply reach_start | exact I]. }
  destruct (session_consistent siOnly (Some "fr") None (Some "ta") emptyPage _ Hreach)
    as (H1 & H2 & _).
  split; [vm_compute; reflexivity|]. split; assumption.
Defined.

(** X17. The page parameter of the URL is not checked at the start.  When it is
    an external URL, the start opens that URL in a new tab, fetches no page,
    shows no content and pushes no history entry, and the external URL stays
    recorded as the current page. *)
Theorem start_external_page (env : Env) (langParam stored : Js.value) (d : Dom)
        (url : string) :
  isExternalURL (Some url) = true ->
  let st0 := initializeFromURL langParam (Some url) (initialState stored d) in
  let st := initializeApp env st0 in
  currentPage st = Some url
  /\ In (WindowOpen url "_blank" "noopener,noreferrer") (trace st)
  /\ content (dom st) = content d
  /\ history st = []
  /\ pages (cache st) = ∅.
Proof.
  intros Hext. cbn zeta.
  assert (Htruthy : Js.truthy (Some url) = true).
  { unfold isExternalURL in Hext. apply andb_true_iff in Hext. apply Hext. }
  remember (initializeFromURL langParam (Some url) (initialState stored d)) as st0 eqn:Hst0.
  assert (Hstart : content (dom st0) = content d /\ history st0 = []
                   /\ pages (cache st0) = ∅) by (rewrite Hst0; repeat split).
  destruct Hstart as (Hct0 & Hh0 & Hpg0).
  assert (Hpage : currentPage st0 = Some url).
  { rewrite Hst0. unfold initializeFromURL.
    cbn [currentPage set_storedLanguage set_currentPage set_currentLanguage].
    apply (or_default (Some url) "home.html"); [discriminate | exact Htruthy]. }
  unfold initializeApp.
  destruct (loadNavigation_parts env (Js.to_string (currentLanguage st0)) st0 st0 eq_refl)
    as (evs & _ & Hp & _ & _ & _ & _ & _).
  set (s1 := loadNavigation env (Js.to_string (currentLanguage st0)) st0) in *.
  unfold pagePart in Hp. injection Hp as Hcp Hpg Hct Hh.
  assert (Hopen : loadContent env (currentPage s1) (currentLanguage s1) s1
                  = emit (WindowOpen url "_blank" "noopener,noreferrer") s1).
  { unfold loadContent, pageOrDefault. rewrite Hcp, Hpage, Htruthy.
    cbn [negb Js.to_string]. rewrite Hext. reflexivity. }
  rewrite Hopen.
  split; [|split; [|split; [|split]]].
  - change (currentPage s1 = Some url). now rewrite Hcp.
  - change (In (WindowOpen url "_blank" "noopener,noreferrer")
               (trace s1 ++ [WindowOpen url "_blank" "noopener,noreferrer"])).
    apply in_or_app. right. left. reflexivity.
  - change (content (dom s1) = content d). now rewrite Hct, Hct0.
  - change (history s1 = []). now rewrite Hh, Hh0.
  - change (pages (cache s1) = ∅). now rewrite Hpg, Hpg0.
Qed.

Lemma start_external_page_witness :
  let st := initializeApp siOnly
              (initializeFromURL None (Some "https://example.org/x")
                                 (initialState None emptyPage)) in
  currentPage st = Some "https://example.org/x"
  /\ history st = []
  /\ content (dom st) = Some "".
Proof.
  cbn zeta.
  destruct (start_external_page siOnly None None emptyPage "https://example.org/x" eq_refl)
    as (H1 & _ & H3 & H4 & _).
  split; [exact H1|]. split; [exact H4 | exact H3].
Defined.

(** ** Year switch *)

Lemma In_classList_remove (x c : string) (classes : list string) :
  In x (classList_remove c classes) <-> In x classes /\ x <> c.
Proof.
  unfold classList_remove. rewrite filter_In. split; intros [Hin Hne]; split; try assumption.
  - intros ->. rewrite String.eqb_refl in Hne. discriminate Hne.
  - destruct (String.eqb_spec x c); [contradiction | reflexivity].
Qed.

Lemma In_classList_add (x c : string) (classes : list string) :
  In x (classList_add c classes) <-> In x classes \/ x = c.
Proof.
  unfold classList_add. destruct (existsb (String.eqb c) classes) eqn:E.
  - split; [auto|]. intros [Hin | ->]; [assumption|].
    apply existsb_exists in E. destruct E as (y & Hy & Heq).
    apply String.eqb_eq in Heq. now subst.
  - rewrite in_app_iff. simpl. split; intros [H | H]; auto.
    + destruct H as [<- | []]. auto.
Qed.

Lemma append_inj_r (s a b : string) : s +:+ a = s +:+ b -> a = b.
Proof. induction s as [|c s IH]; simpl; [auto|]. intros [= H]. auto. Qed.

Lemma yearId_inj (section y1 y2 : string) :
  yearId section y1 = yearId section y2 -> y1 = y2.
Proof.
  unfold yearId. intros H. apply append_inj_r in H. now injection H.
Qed.

Lemma alter_is_Some (f : list string -> list string) (i j : string)
      (m : gmap string (list string)) :
  is_Some (alter f i m !! j) <-> is_Some (m !! j).
Proof.
  rewrite lookup_alter. case_decide; [subst; apply fmap_is_Some | reflexivity].
Qed.



Definition budgetYears : YearWidget :=
  mkYearWidget (<["budget-2023" := ["year"; "active"]]>
                  (<["budget-2024" := ["year"]]>
                     (<["budget-2025" := ["year"]]> ∅)))
               [["btn"; "btn-primary"]; ["btn"; "btn-outline-primary"];
                ["btn"; "btn-outline-primary"]].


(** X19. Only the sections of 2023, 2024 and 2025 are ever hidden.  A section
    of any other year, once [switchYear] has shown it, stays shown through
    every later [switchYear] of the same section, so that two sections are
    shown at the same time when the later switch shows one of the three. *)
Theorem switchYear_other_year (section year year2 : string) (btn btn2 : nat)
        (w : YearWidget) :
  cssIdentifier section = true ->
  ~ In year switchedYears ->
  is_Some (byId w !! yearId section year) ->
  let w2 := switchYear section year2 btn2 (switchYear section year btn w) in
  shown w2 (yearId section year)
  /\ (In year2 switchedYears -> is_Some (byId w !! yearId section year2) ->
      shown w2 (yearId section year2) /\ yearId section year2 <> yearId section year).
Proof.
  intros _ Hout [classes Hc]. cbn zeta.
  assert (Hne : forall y, In y switchedYears -> yearId section y <> yearId section year).
  { intros y Hy Heq. apply yearId_inj in Heq. subst. contradiction. }
  pose proof (Hne "2023" ltac:(simpl; auto)) as H23.
  pose proof (Hne "2024" ltac:(simpl; auto)) as H24.
  pose proof (Hne "2025" ltac:(simpl; auto)) as H25.
  assert (Hfirst : shown (switchYear section year btn w) (yearId section year)).
  { unfold shown, switchYear. cbn [byId].
    rewrite lookup_alter_eq, !lookup_alter_ne, Hc by assumption. simpl.
    eexists. split; [reflexivity|]. apply In_classList_add. right. reflexivity. }
  split.
  - destruct Hfirst as (c1 & Hc1 & Hin1).
    unfold shown. unfold switchYear at 1. cbn [byId].
    destruct (decide (yearId section year2 = yearId section year)) as [Heq | Hneq].
    + rewrite Heq, lookup_alter_eq, !lookup_alter_ne, Hc1 by assumption. simpl.
      eexists. split; [reflexivity|]. apply In_classList_add. left. exact Hin1.
    + rewrite !lookup_alter_ne, Hc1 by assumption. eauto.
  - intros Hy2 [c2 Hc2]. split; [|apply Hne; exact Hy2].
    assert (Hstill : is_Some (byId (switchYear section year btn w)
                                !! yearId section year2)).
    { unfold switchYear. cbn [byId]. rewrite !alter_is_Some. eauto. }
    destruct Hstill as [c3 Hc3].
    unfold shown. unfold switchYear at 1. cbn [byId].
    rewrite lookup_alter_eq.
    destruct (alter (classList_remove "active") (yearId section "2025")
                (alter (classList_remove "active") (yearId section "2024")
                   (alter (classList_remove "active") (yearId section "2023")
                      (byId (switchYear section year btn w))))
              !! yearId section year2) as [c4|] eqn:E4.
    + simpl. eexists. split; [reflexivity|]. apply In_classList_add. right. reflexivity.
    + assert (Hsome : is_Some (alter (classList_remove "active") (yearId section "2025")
                (alter (classList_remove "active") (yearId section "2024")
                   (alter (classList_remove "active") (yearId section "2023")
                      (byId (switchYear section year btn w))))
              !! yearId section year2)) by (rewrite !alter_is_Some; eauto).
      rewrite E4 in Hsome. destruct Hsome as [? Habs]. discriminate Habs.
Qed.

Lemma switchYear_other_year_witness :
  let w := mkYearWidget (<["budget-2022" := ["year"]]>
                           (<["budget-2023" := ["year"; "active"]]> ∅)) [] in
  let w2 := switchYear "budget" "2023" 0 (switchYear "budget" "2022" 0 w) in
  shown w2 "budget-2022" /\ shown w2 "budget-2023".
Proof.
  cbn zeta.
  set (w := mkYearWidget (<["budget-2022" := ["year"]]>
                            (<["budget-2023" := ["year"; "active"]]> ∅)) []).
  assert (Hout : ~ In "2022" switchedYears).
  { simpl. intros [H | [H | [H | []]]]; discriminate H. }
  assert (Hex : is_Some (byId w !! yearId "budget" "2022")) by (eexists; reflexivity).
  destruct (switchYear_other_year "budget" "2022" "2023" 0 0 w eq_refl Hout Hex)
    as [H22 H23].
  split; [exact H22|].
  apply H23; [simpl; auto | eexists; reflexivity].
Defined.

Lemma lookup_map {A B : Type} (f : A -> B) (l : list A) (i : nat) :
  List.map f l !! i = f <$> l !! i.
Proof.
  revert i. induction l as [|x l IH]; intros [|i]; simpl; try reflexivity. apply IH.
Qed.

(** X20. For a section whose name is a CSS identifier and a button among the
    buttons of its parent: after [switchYear] the clicked button is the only
    one of them styled [btn-primary], every other one is styled
    [btn-outline-primary] and the clicked one is not; the other class names of
    the buttons are kept and no button is added or removed. *)
Theorem switchYear_buttons (section year : string) (btn : nat) (w : YearWidget) :
  cssIdentifier section = true ->
  btn < length (buttons w) ->
  let w' := switchYear section year btn w in
  length (buttons w') = length (buttons w)
  /\ forall i old, buttons w !! i = Some old ->
       exists new, buttons w' !! i = Some new
                   /\ (In "btn-primary" new <-> i = btn)
                   /\ (In "btn-outline-primary" new <-> i <> btn)
                   /\ (forall c, c <> "btn-primary" -> c <> "btn-outline-primary" ->
                                 (In c new <-> In c old)).
Proof.
  intros _ Hbtn. cbn zeta. unfold switchYear. cbn [buttons].
  split; [now rewrite length_alter, length_map|].
  intros i old Hold.
  destruct (decide (i = btn)) as [-> | Hne].
  - rewrite list_lookup_alter_eq, lookup_map, Hold. simpl.
    eexists. split; [reflexivity|]. split; [|split].
    + split; [reflexivity|]. intros _. apply In_classList_add. right. reflexivity.
    + split; [|intros H; contradiction].
      intros Hin. apply In_classList_add in Hin. destruct Hin as [Hin | Hin];
        [|discriminate Hin].
      apply In_classList_remove in Hin. destruct Hin as [_ Hin]. contradiction.
    + intros c Hp Ho.
      rewrite In_classList_add, In_classList_remove, In_classList_add,
              In_classList_remove. tauto.
  - rewrite list_lookup_alter_ne, lookup_map, Hold by congruence. simpl.
    eexists. split; [reflexivity|]. split; [|split].
    + split; [|intros H; contradiction].
      intros Hin. apply In_classList_add in Hin. destruct Hin as [Hin | Hin];
        [|discriminate Hin].
      apply In_classList_remove in Hin. destruct Hin as [_ Hin]. contradiction.
    + split; [intros _; exact Hne|]. intros _. apply In_classList_add. right. reflexivity.
    + intros c Hp Ho. rewrite In_classList_add, In_classList_remove. tauto.
Qed.

Lemma switchYear_buttons_witness :
  buttons (switchYear "budget" "2024" 1 budgetYears)
  = [["btn"; "btn-outline-primary"]; ["btn"; "btn-primary"];
     ["btn"; "btn-outline-primary"]]
  /\ length (buttons (switchYear "budget" "2024" 1 budgetYears)) = 3.
Proof.
  split; [reflexivity|].
  assert (Hbtn : 1 < length (buttons budgetYears)) by (simpl; lia).
  destruct (switchYear_buttons "budget" "2024" 1 budgetYears eq_refl Hbtn) as [Hlen _].
  rewrite Hlen. reflexivity.
Defined.

(** ** What reaches the page unchecked *)

Lemma errorPanel_around (message : string) :
  errorPanel message = panelBefore +:+ message +:+ panelAfter.
Proof. reflexivity. Qed.

(** X21. The page parameter of the URL reaches the document as markup.  When
    the start cannot load the page named by the parameter, the content
    container is set to the error panel with the parameter's text inside it
    exactly as it was given, with no escaping between the markup before and
    the markup after. *)
Theorem start_page_in_error_panel (env : Env) (langParam stored : Js.value) (d : Dom)
        (p : string) :
  Js.truthy (Some p) = true ->
  isExternalURL (Some p) = false ->
  is_Some (content d) ->
  let st0 := initializeFromURL langParam (Some p) (initialState stored d) in
  pageFetchFailed env (fileNameOf p)
                  (fetch env (pagePath (currentLanguage st0) (fileNameOf p))) = true ->
  content (dom (initializeApp env st0))
  = Some (panelBefore +:+ "Failed to load page: " +:+ p +:+ panelAfter).
Proof.
  intros Htruthy Hlocal [old Hold]. cbn zeta.
  remember (initializeFromURL langParam (Some p) (initialState stored d)) as st0 eqn:Hst0.
  intros Hfail.
  assert (Hstart : content (dom st0) = content d /\ pages (cache st0) = ∅)
    by (rewrite Hst0; split; reflexivity).
  destruct Hstart as (Hct0 & Hpg0).
  assert (Hpage : currentPage st0 = Some p).
  { rewrite Hst0. unfold initializeFromURL.
    cbn [currentPage set_storedLanguage set_currentPage set_currentLanguage].
    apply (or_default (Some p) "home.html"); [discriminate | exact Htruthy]. }
  unfold initializeApp.
  destruct (loadNavigation_parts env (Js.to_string (currentLanguage st0)) st0 st0 eq_refl)
    as (evs & _ & Hp & _ & Hr & _).
  set (s1 := loadNavigation env (Js.to_string (currentLanguage st0)) st0) in *.
  unfold pagePart in Hp. injection Hp as Hcp Hpg Hct _.
  unfold restPart in Hr. injection Hr as Hl _ _ _.
  assert (Hsame : pageOrDefault (currentPage s1) = p).
  { rewrite Hcp, Hpage. unfold pageOrDefault. now rewrite Htruthy. }
  assert (Hlang : langOrCurrent (currentLanguage s1) s1 = currentLanguage st0).
  { unfold langOrCurrent. rewrite Hl. apply or_same. }
  assert (Hav : pageAvailable env (pageOrDefault (currentPage s1))
                              (langOrCurrent (currentLanguage s1) s1) s1 = None).
  { rewrite Hsame, Hlang. unfold pageAvailable. rewrite Hpg, Hpg0, lookup_empty. simpl.
    destruct (fetch env _) as [|[|] [text|] j]; simpl in Hfail; try reflexivity;
      try discriminate Hfail.
    destruct (processContent env (fileNameOf p) text); [discriminate Hfail | reflexivity]. }
  rewrite <- Hsame in Hlocal.
  destruct (loadContent_unavailable env (currentPage s1) (currentLanguage s1) s1
              Hlocal Hav) as (_ & _ & _ & Hshown).
  change (content (dom (loadContent env (currentPage s1) (currentLanguage s1) s1))
          = Some (panelBefore +:+ "Failed to load page: " +:+ p +:+ panelAfter)).
  rewrite Hshown, Hct, Hct0, Hold, Hsame. reflexivity.
Qed.

Lemma start_page_in_error_panel_witness :
  content (dom (initializeApp offline
                  (initializeFromURL None (Some "<b>x</b>") (initialState None emptyPage))))
  = Some (panelBefore +:+ "Failed to load page: " +:+ "<b>x</b>" +:+ panelAfter).
Proof.
  apply (start_page_in_error_panel offline None None emptyPage "<b>x</b>");
    [reflexivity | reflexivity | eexists; reflexivity | reflexivity].
Defined.

(** X22. A back or forward step changes the active language without storing it:
    the stored preference after the step is the one before it, whatever the
    state of the entry, so the active language and the stored preference can
    differ afterwards. *)
Theorem onPopState_not_persisted (env : Env) (state : option PopState) (st : State) :
  storedLanguage (onPopState env state st) = storedLanguage st
  /\ (forall s, state = Some s -> Js.truthy (ps_lang s) = true ->
        currentLanguage (onPopState env state st) = ps_lang s).
Proof.
  destruct state as [s|]; [|split; [reflexivity | discriminate]].
  set (lang := Js.or (ps_lang s) (Some CONFIG.defaultLanguage)).
  set (restored := set_currentPage (Js.or (ps_page s) (Some CONFIG.defaultPage))
                     (set_currentLanguage lang st)).
  change (onPopState env (Some s) st) with (initializeApp env restored).
  unfold initializeApp.
  destruct (loadNavigation_parts env (Js.to_string (currentLanguage restored))
              restored restored eq_refl) as (evN & _ & _ & _ & HrN & _).
  set (s1 := loadNavigation env (Js.to_string (currentLanguage restored)) restored) in *.
  destruct (loadContent_parts env (currentPage s1) (currentLanguage s1) s1 s1
              eq_refl eq_refl) as (evC & _ & _ & _ & HrC & _).
  unfold restPart in HrN, HrC. injection HrN as Hl1 Hs1 _ _. injection HrC as Hl2 Hs2 _ _.
  split.
  - change (storedLanguage (loadContent env (currentPage s1) (currentLanguage s1) s1)
            = storedLanguage st). rewrite Hs2, Hs1. reflexivity.
  - intros s' [= <-] Ht.
    change (currentLanguage (loadContent env (currentPage s1) (currentLanguage s1) s1)
            = ps_lang s). rewrite Hl2, Hl1. simpl. unfold lang, Js.or. now rewrite Ht.
Qed.
